(** * A shallow embedding of the synthetic document generator (main.py)

    The generator draws a document type and a template for every unit,
    builds a file name, dispatches to one of four synthesizers, and the
    driver collects the per-unit results batch by batch, writing progress
    checkpoints and a final report.

    Conventions of the embedding:
    - a Python [int] is a [Z], a Python [float] is a binary64 [float]
      (the kernel's primitive floats, so products and sums are the doubles
      that Python computes), a [str] is a [string];
    - a [dict] with string keys is a [gmap string _]; a dict that is only
      iterated in insertion order is an association list;
    - the ambient random generator is an oracle: an infinite stream of raw
      draws and a cursor; every primitive consumes one draw;
    - the file system is a [gmap] from paths to what was written there;
    - exceptions are values of [exn]; a computation returns the exception
      or the result together with the state it reached. *)

From Stdlib Require Import ZArith Ascii String Uint63 PrimFloat FloatOps SpecFloat.
From stdpp Require Import gmap strings list pretty.

Set Warnings "-inexact-float,-register-all".
Local Open Scope Z_scope.

(** ** Python values *)

Inductive exn : Type :=
  | ValueError (msg : string)
  | IndexError (msg : string)
  | KeyError (msg : string)
  | ZeroDivisionError (msg : string)
  | OSError (msg : string)
  | Exception (msg : string).

(** [str(e)] *)
Definition str_exn (e : exn) : string :=
  match e with
  | ValueError m | IndexError m | KeyError m | ZeroDivisionError m | OSError m | Exception m => m
  end.

Inductive pyval : Type :=
  | VNone
  | VInt (z : Z)
  | VFloat (f : float)
  | VStr (s : string).

(** [float(z)] for an integer below 2^63 in absolute value. *)
Definition float_of_Z (z : Z) : float :=
  if z <? 0 then PrimFloat.opp (PrimFloat.of_uint63 (Uint63.of_Z (- z)))
  else PrimFloat.of_uint63 (Uint63.of_Z z).

(** [a + b] on numbers: an int and a float add as floats. *)
Definition py_add (a b : pyval) : pyval :=
  match a, b with
  | VInt x, VInt y => VInt (x + y)
  | VInt x, VFloat y => VFloat (PrimFloat.add (float_of_Z x) y)
  | VFloat x, VInt y => VFloat (PrimFloat.add x (float_of_Z y))
  | VFloat x, VFloat y => VFloat (PrimFloat.add x y)
  | _, _ => VNone
  end.

(** [a * b] on numbers. *)
Definition py_mul (a b : pyval) : pyval :=
  match a, b with
  | VInt x, VInt y => VInt (x * y)
  | VInt x, VFloat y => VFloat (PrimFloat.mul (float_of_Z x) y)
  | VFloat x, VInt y => VFloat (PrimFloat.mul x (float_of_Z y))
  | VFloat x, VFloat y => VFloat (PrimFloat.mul x y)
  | _, _ => VNone
  end.

(** [a == b] on the values that occur here (floats compare as IEEE). *)
Definition py_eqb (a b : pyval) : bool :=
  match a, b with
  | VNone, VNone => true
  | VInt x, VInt y => x =? y
  | VInt x, VFloat y => PrimFloat.eqb (float_of_Z x) y
  | VFloat x, VInt y => PrimFloat.eqb x (float_of_Z y)
  | VFloat x, VFloat y => PrimFloat.eqb x y
  | VStr x, VStr y => bool_decide (x = y)
  | _, _ => false
  end.

(** [round(x, 2)]: CPython prints the exact binary value of [x] with two
    decimals, correctly rounded (ties to even), and reads the decimal back
    as the nearest double.  The nearest double of [n/100] is the IEEE
    quotient of the two exactly representable numbers [n] and [100]. *)
Definition round_half_even (num den : Z) : Z :=
  let q := num / den in
  let r := num mod den in
  if 2 * r <? den then q
  else if den <? 2 * r then q + 1
  else if Z.even q then q else q + 1.

Definition hundredths (x : float) : option Z :=
  match Prim2SF x with
  | S754_zero _ => Some 0
  | S754_finite s m e =>
      let n := if 0 <=? e
               then Z.pos m * 2 ^ e * 100
               else round_half_even (Z.pos m * 100) (2 ^ (- e)) in
      Some (if s then - n else n)
  | _ => None
  end.

Definition py_round2 (x : float) : float :=
  match hundredths x with
  | Some n => PrimFloat.div (float_of_Z n) (float_of_Z 100)
  | None => x
  end.

(** ** State, exceptions and the random oracle *)

Inductive pdf_op : Type :=
  | AddPage
  | SetFont (family style : string) (size : Z)
  | Cell (w h : Z) (txt : string) (ln : Z) (align : string)
  | Ln (h : Z)
  | MultiCell (w h : Z) (txt : string).

Inductive docx_elem : Type :=
  | Heading (text : string) (level : Z)
  | Paragraph (text : string).

Record bar_chart : Type := BarChart {
  chart_title : string;
  x_axis_title : string;
  y_axis_title : string;
  chart_data : (Z * Z * Z * Z);      (* min_col, min_row, max_col, max_row *)
  chart_cats : (Z * Z * Z);          (* min_col, min_row, max_row *)
  chart_anchor : string
}.

Inductive json : Type :=
  | JNull
  | JInt (z : Z)
  | JFloat (f : float)
  | JStr (s : string)
  | JObj (fields : list (string * json)).

Record worksheet : Type := Worksheet {
  cells : gmap (Z * Z) pyval;         (* (row, column) *)
  charts : list bar_chart
}.

Inductive file : Type :=
  | DocxFile (body : list docx_elem)
  | XlsxFile (ws : worksheet)
  | PdfFile (ops : list pdf_op)
  | TxtFile (content : string)
  | JsonFile (j : json).

(** What lies outside the program: the text corpus and the disk. *)
Record env : Type := Env {
  (* an exception other than LookupError escaping the data checks, or
     raised by a download *)
  nltk_setup : option exn;
  (* gutenberg.raw(book) followed by nltk.sent_tokenize *)
  book_sentences : string -> exn + list string;
  (* creating or saving a file at this path raises *)
  io_fault : string -> option exn
}.

Record world : Type := World {
  draws : nat -> N;
  cursor : nat;
  files : gmap string file
}.

Definition M (A : Type) : Type := world -> (exn + A) * world.

Definition ret {A} (a : A) : M A := fun w => (inr a, w).
Definition raise {A} (e : exn) : M A := fun w => (inl e, w).
Definition bind {A B} (c : M A) (k : A -> M B) : M B :=
  fun w => match c w with
           | (inl e, w') => (inl e, w')
           | (inr a, w') => k a w'
           end.
(** [try: c  except Exception as e: h e] *)
Definition try_except {A} (c : M A) (h : exn -> M A) : M A :=
  fun w => match c w with
           | (inl e, w') => h e w'
           | (inr a, w') => (inr a, w')
           end.

Notation "x <- c ;; k" := (bind c (fun x => k))
  (at level 100, c at next level, right associativity).
Notation "c ;;; k" := (bind c (fun _ => k))
  (at level 100, right associativity).

(** [for x in xs: body x] *)
Fixpoint for_each {A} (xs : list A) (body : A -> M unit) : M unit :=
  match xs with
  | [] => ret tt
  | x :: xs' => body x ;;; for_each xs' body
  end.

(** [[f() for _ in range(n)]] *)
Fixpoint repeat_collect {A} (n : nat) (c : M A) : M (list A) :=
  match n with
  | O => ret []
  | S n' => x <- c ;; xs <- repeat_collect n' c ;; ret (x :: xs)
  end.

Definition next_draw : M N :=
  fun w => (inr (draws w (cursor w)),
            World (draws w) (S (cursor w)) (files w)).

(** [random._randbelow(n)] for [0 < n] *)
Definition randbelow (n : Z) : M Z :=
  r <- next_draw ;; ret (Z.of_N r mod n).

(** [random.random()]: 53 random bits scaled into [0, 1) *)
Definition random : M float :=
  r <- next_draw ;;
  ret (PrimFloat.div (float_of_Z (Z.of_N r mod 2 ^ 53)) (float_of_Z (2 ^ 53))).

(** [random.randint(a, b)] *)
Definition randint (a b : Z) : M Z :=
  j <- randbelow (b - a + 1) ;; ret (a + j).

(** [random.uniform(a, b)] *)
Definition uniform (a b : float) : M float :=
  u <- random ;; ret (PrimFloat.add a (PrimFloat.mul (PrimFloat.sub b a) u)).

(** [xs[i]] *)
Definition index {A} (xs : list A) (i : Z) : M A :=
  match (if 0 <=? i then xs !! Z.to_nat i else None) with
  | Some x => ret x
  | None => raise (IndexError "list index out of range")
  end.

(** [random.choice(seq)] *)
Definition choice {A} (xs : list A) : M A :=
  match xs with
  | [] => raise (IndexError "Cannot choose from an empty sequence")
  | _ => j <- randbelow (Z.of_nat (length xs)) ;; index xs j
  end.

(** [random.sample(population, k)]: CPython's selection from a pool, the
    branch it takes for populations of at most 21 elements; a selected
    position is refilled with the last live element of the pool. *)
Fixpoint sample_pool {A} (k : nat) (pool : list A) (n : nat) : M (list A) :=
  match k with
  | O => ret []
  | S k' =>
      j <- randbelow (Z.of_nat n) ;;
      x <- index pool j ;;
      y <- index pool (Z.of_nat n - 1) ;;
      rest <- sample_pool k' (<[Z.to_nat j := y]> pool) (Nat.pred n) ;;
      ret (x :: rest)
  end.

Definition sample {A} (population : list A) (k : Z) : M (list A) :=
  let n := Z.of_nat (length population) in
  if (0 <=? k) && (k <=? n)
  then sample_pool (Z.to_nat k) population (length population)
  else raise (ValueError "Sample larger than population or is negative").

(** [itertools.accumulate(weights)] *)
Fixpoint accumulate_from (acc : float) (ws : list float) : list float :=
  match ws with
  | [] => []
  | w :: ws' => let s := PrimFloat.add acc w in s :: accumulate_from s ws'
  end.

Definition accumulate (ws : list float) : list float :=
  match ws with
  | [] => []
  | w :: ws' => w :: accumulate_from w ws'
  end.

(** [bisect.bisect_right(a, x, lo, hi)]; [None] stands for an index out of
    range.  The interval shrinks at every turn, so [hi - lo] turns suffice. *)
Fixpoint bisect_go (fuel : nat) (a : list float) (x : float) (lo hi : nat)
  : option nat :=
  match fuel with
  | O => Some lo
  | S fuel' =>
      if (lo <? hi)%nat then
        let mid := ((lo + hi) / 2)%nat in
        match a !! mid with
        | None => None
        | Some v =>
            if PrimFloat.ltb x v then bisect_go fuel' a x lo mid
            else bisect_go fuel' a x (mid + 1)%nat hi
        end
      else Some lo
  end.

Definition bisect (a : list float) (x : float) (lo hi : nat) : option nat :=
  bisect_go (hi - lo) a x lo hi.

Definition isfinite (x : float) : bool :=
  negb (PrimFloat.is_nan x || PrimFloat.is_infinity x).

(** [random.choices(population, weights, k=k)] *)
Definition choices {A} (population : list A) (weights : option (list float))
    (k : nat) : M (list A) :=
  let n := length population in
  match weights with
  | None =>
      (* floor(random() * n): the 53-bit draw r stands for r / 2^53, and the
         floor of the product is taken on the integers *)
      repeat_collect k
        (r <- next_draw ;;
         index population ((Z.of_N r mod 2 ^ 53) * Z.of_nat n / 2 ^ 53))
  | Some ws =>
      let cum_weights := accumulate ws in
      if negb (length cum_weights =? n)%nat
      then raise (ValueError "The number of weights does not match the population")
      else
        t <- index cum_weights (Z.of_nat (length cum_weights) - 1) ;;
        let total := PrimFloat.add t 0%float in
        if PrimFloat.leb total 0%float
        then raise (ValueError "Total of weights must be greater than zero")
        else if negb (isfinite total)
        then raise (ValueError "Total of weights must be finite")
        else
          repeat_collect k
            (u <- random ;;
             match bisect cum_weights (PrimFloat.mul u total) 0 (n - 1) with
             | Some i => index population (Z.of_nat i)
             | None => raise (IndexError "list index out of range")
             end)
  end.

(** ** Text generation *)

Definition books : list string :=
  ["austen-sense.txt"; "austen-emma.txt"; "austen-persuasion.txt";
   "bible-kjv.txt"; "blake-poems.txt"; "carroll-alice.txt"].

Definition fallback_text : list string :=
  ["This is a sample paragraph for testing purposes. It contains multiple sentences that form a coherent text block.";
   "The quick brown fox jumps over the lazy dog. This is a common pangram used for testing text rendering.";
   "Lorem ipsum dolor sit amet, consectetur adipiscing elit. Sed do eiusmod tempor incididunt ut labore et dolore magna aliqua.";
   "In a world of digital transformation, data analysis plays a crucial role in decision-making processes.";
   "The importance of clear communication cannot be overstated in professional settings.";
   "Data-driven insights have become essential for modern business operations and strategic planning.";
   "Effective communication is the cornerstone of successful project management and team collaboration.";
   "Innovation and adaptability are key factors in maintaining competitive advantage in today's market.";
   "Quality assurance processes ensure consistent delivery of products and services to customers.";
   "Strategic planning and execution are vital for achieving long-term organizational goals.";
   "The integration of artificial intelligence and machine learning is revolutionizing business processes.";
   "Sustainable practices and environmental responsibility are increasingly important in corporate strategy.";
   "Customer experience and satisfaction remain top priorities in service-oriented industries.";
   "Digital transformation initiatives require careful planning and stakeholder engagement.";
   "Risk management and compliance frameworks are essential for organizational resilience."].

(** [all_text] after the loop over [books]: a book that cannot be loaded is
    skipped. *)
Definition load_books (E : env) : list string :=
  flat_map (fun book => match book_sentences E book with
                        | inr sentences => sentences
                        | inl _ => []
                        end) books.

(** The [try] block of [generate_paragraphs]. *)
Definition primary_paragraphs (E : env)
    (num_paragraphs sentences_per_paragraph : Z) : M (list string) :=
  match nltk_setup E with Some e => raise e | None => ret tt end ;;;
  let all_text := load_books E in
  if bool_decide (all_text = [])
  then raise (Exception "No text could be loaded from any book")
  else
    repeat_collect (Z.to_nat num_paragraphs)
      (selected_sentences <-
         sample all_text
           (Z.min sentences_per_paragraph (Z.of_nat (length all_text))) ;;
       ret (String.concat " " selected_sentences)).

(** The [except] block of [generate_paragraphs]. *)
Definition fallback_paragraphs (num_paragraphs : Z) : M (list string) :=
  sample fallback_text
    (Z.min num_paragraphs (Z.of_nat (length fallback_text))).

Definition generate_paragraphs (E : env)
    (num_paragraphs sentences_per_paragraph : Z) : M (list string) :=
  try_except
    (primary_paragraphs E num_paragraphs sentences_per_paragraph)
    (fun _ => fallback_paragraphs num_paragraphs).

(** Sample inputs. *)
Definition env_offline : env :=
  Env (Some (Exception "Resource gutenberg not found")) (fun _ => inr []) (fun _ => None).
Definition env_tiny : env :=
  Env None (fun b => if bool_decide (b = "blake-poems.txt")
                     then inr ["Tyger Tyger."; "Burning bright."; "In the forests."]
                     else inl (OSError "missing"))
      (fun _ => None).
Definition world0 : world := World (fun i => N.of_nat (7 * i + 3)) 0 ∅.


(** ** Strings *)

Definition nl : string := String (ascii_of_nat 10) EmptyString.

Definition is_upper (c : ascii) : bool :=
  let n := nat_of_ascii c in ((65 <=? n) && (n <=? 90))%nat.
Definition is_lower (c : ascii) : bool :=
  let n := nat_of_ascii c in ((97 <=? n) && (n <=? 122))%nat.
Definition to_upper (c : ascii) : ascii :=
  if is_lower c then ascii_of_nat (nat_of_ascii c - 32) else c.
Definition to_lower (c : ascii) : ascii :=
  if is_upper c then ascii_of_nat (nat_of_ascii c + 32) else c.

(** [s.title()]: a letter that follows a letter is lowered, any other
    letter is raised. *)
Fixpoint title_from (after_letter : bool) (s : string) : string :=
  match s with
  | EmptyString => EmptyString
  | String c s' =>
      if is_upper c || is_lower c
      then String (if after_letter then to_lower c else to_upper c) (title_from true s')
      else String c (title_from false s')
  end.
Definition title (s : string) : string := title_from false s.

(** [str(z)] *)
Definition str_int (z : Z) : string := pretty z.

(** [f"{z:07d}"]: the sign, then zeros up to seven characters in all. *)
Definition zfill (width : nat) (digits : string) : string :=
  String.concat "" (replicate (width - String.length digits) "0") +:+ digits.
Definition format_07d (z : Z) : string :=
  if z <? 0 then "-" +:+ zfill 6 (pretty (- z)) else zfill 7 (pretty z).

(** [os.path.join(a, b)] for a relative [b] *)
Definition path_join (a b : string) : string := a +:+ "/" +:+ b.

(** [string.ascii_uppercase], [string.ascii_lowercase + string.digits], as
    sequences of one-character strings *)
Definition ascii_uppercase : list string :=
  ["A"; "B"; "C"; "D"; "E"; "F"; "G"; "H"; "I"; "J"; "K"; "L"; "M";
   "N"; "O"; "P"; "Q"; "R"; "S"; "T"; "U"; "V"; "W"; "X"; "Y"; "Z"].
Definition ascii_lowercase_digits : list string :=
  ["a"; "b"; "c"; "d"; "e"; "f"; "g"; "h"; "i"; "j"; "k"; "l"; "m";
   "n"; "o"; "p"; "q"; "r"; "s"; "t"; "u"; "v"; "w"; "x"; "y"; "z";
   "0"; "1"; "2"; "3"; "4"; "5"; "6"; "7"; "8"; "9"].

(** ** Files *)

(** [doc.save(path)], [wb.save(path)], [pdf.output(path)], [json.dump]:
    the file at [path] becomes [f], unless the disk refuses. *)
Definition save (E : env) (path : string) (f : file) : M unit :=
  fun w => match io_fault E path with
           | Some e => (inl e, w)
           | None => (inr tt, World (draws w) (cursor w) (<[path := f]> (files w)))
           end.

(** [open(path, 'w')]: the file is created or truncated. *)
Definition open_w (E : env) (path : string) : M unit :=
  save E path (TxtFile "").

(** [f.write(s)] on the file opened at [path] *)
Definition fwrite (path : string) (s : string) : M unit :=
  fun w => (inr tt,
            World (draws w) (cursor w)
              (alter (fun f => match f with
                               | TxtFile c => TxtFile (c +:+ s)
                               | _ => f
                               end) path (files w))).

(** [for x in xs: s = body s x] *)
Fixpoint fold_for {A S} (xs : list A) (body : S -> A -> M S) (s : S) : M S :=
  match xs with
  | [] => ret s
  | x :: xs' => s' <- body s x ;; fold_for xs' body s'
  end.

(** ** The synthesizers *)

Definition names : list string := ["John"; "Jane"; "Alex"; "Sam"].
Definition audiences : list string :=
  ["Employees"; "Managers"; "Department Heads"; "Team Members"].
Definition subjects : list string :=
  ["Policy Update"; "Upcoming Event"; "Quarterly Results"; "New Initiative"].

Definition add_paragraphs (doc : list docx_elem) (ps : list string) : list docx_elem :=
  doc ++ map Paragraph ps.

Definition create_word_document (E : env) (filename template_type : string) : M unit :=
  letters <- sample ascii_uppercase 3 ;;
  let doc := [Heading (title template_type +:+ " - " +:+ String.concat " " letters) 0] in
  doc <-
    (if bool_decide (template_type = "report") then
       let doc := doc ++ [Heading "Executive Summary" 1] in
       ps <- generate_paragraphs E 1 5 ;; p <- index ps 0 ;;
       let doc := doc ++ [Paragraph p] in
       let doc := doc ++ [Heading "Introduction" 1] in
       ps <- generate_paragraphs E 2 5 ;;
       let doc := add_paragraphs doc ps in
       let doc := doc ++ [Heading "Findings" 1] in
       ps <- generate_paragraphs E 3 5 ;;
       let doc := add_paragraphs doc ps in
       let doc := doc ++ [Heading "Conclusion" 1] in
       ps <- generate_paragraphs E 1 5 ;; p <- index ps 0 ;;
       ret (doc ++ [Paragraph p])
     else if bool_decide (template_type = "letter") then
       day <- randint 1 31 ;;
       let doc := doc ++ [Paragraph ("May " +:+ str_int day +:+ ", 2025")] in
       let doc := doc ++ [Paragraph ""] in
       initial <- choice ascii_uppercase ;;
       let doc := doc ++ [Paragraph ("Dear Mr./Ms. " +:+ initial +:+ ".,")] in
       ps <- generate_paragraphs E 3 5 ;;
       let doc := add_paragraphs doc ps in
       let doc := doc ++ [Paragraph "Sincerely,"] in
       name <- choice names ;;
       initial <- choice ascii_uppercase ;;
       ret (doc ++ [Paragraph (name +:+ " " +:+ initial +:+ ".")])
     else ret doc) ;;
  save E filename (DocxFile doc).

(** [ws.cell(row=r, column=c, value=v)] *)
Definition set_cell (r c : Z) (v : pyval) (ws : worksheet) : worksheet :=
  Worksheet (<[(r, c) := v]> (cells ws)) (charts ws).

(** [for col, v in enumerate(vs, start): ws.cell(row=r, column=col, value=v)] *)
Fixpoint set_row (r start : Z) (vs : list pyval) (ws : worksheet) : worksheet :=
  match vs with
  | [] => ws
  | v :: vs' => set_row r (start + 1) vs' (set_cell r start v ws)
  end.

Definition regions : list string := ["North"; "South"; "East"; "West"; "Central"].

(** One turn of the loop over the regions; the state is [(row, ws)]. *)
Definition region_row (st : Z * worksheet) (region : string) : M (Z * worksheet) :=
  let '(row, ws) := st in
  quarterly_data <- repeat_collect 4 (randint 100 1000) ;;
  let total := fold_left Z.add quarterly_data 0 in
  let ws := set_cell row 1 (VStr region) ws in
  let ws := set_row row 2 (map VInt quarterly_data) ws in
  let ws := set_cell row 6 (VInt total) ws in
  ret (row + 1, ws).

(** The loop over [range(num_items)] of the invoice; the state is
    [(row, total, ws)]. *)
Fixpoint invoice_items (num_items : nat) (row : Z) (total : pyval) (ws : worksheet)
  : M (Z * pyval * worksheet) :=
  match num_items with
  | O => ret (row, total, ws)
  | S n =>
      letter <- choice ascii_uppercase ;;
      number <- randint 100 999 ;;
      let item := "Item " +:+ letter +:+ "-" +:+ str_int number in
      let desc := "Description for " +:+ item in
      qty <- randint 1 10 ;;
      raw <- uniform 10 500 ;;
      let price := py_round2 raw in
      let amount := py_mul (VInt qty) (VFloat price) in
      let total := py_add total amount in
      let ws := set_cell row 1 (VStr item) ws in
      let ws := set_cell row 2 (VStr desc) ws in
      let ws := set_cell row 3 (VInt qty) ws in
      let ws := set_cell row 4 (VFloat price) ws in
      let ws := set_cell row 5 amount ws in
      invoice_items n (row + 1) total ws
  end.

(** The branch of [create_excel_document] for the template "data_analysis". *)
Definition data_analysis_sheet (ws : worksheet) : M worksheet :=
  let headers := ["Region"; "Q1"; "Q2"; "Q3"; "Q4"; "Total"] in
  let ws := set_row 1 1 (map VStr headers) ws in
  st <- fold_for regions region_row (2, ws) ;;
  let chart := BarChart "Quarterly Performance by Region" "Region" "Revenue"
                 (2, 1, 5, 6) (1, 2, 6) "H2" in
  ret (Worksheet (cells (snd st)) (charts (snd st) ++ [chart])).

(** The branch of [create_excel_document] for the template "invoice". *)
Definition invoice_sheet (ws : worksheet) : M worksheet :=
  let ws := set_cell 1 1 (VStr "INVOICE") ws in
  let ws := set_cell 3 1 (VStr "Bill To:") ws in
  company <- choice ascii_uppercase ;;
  let ws := set_cell 4 1 (VStr ("Company " +:+ company)) ws in
  street <- randint 100 999 ;;
  let ws := set_cell 5 1 (VStr (str_int street +:+ " Main Street")) ws in
  zip <- randint 10000 99999 ;;
  let ws := set_cell 6 1 (VStr ("City, State " +:+ str_int zip)) ws in
  let ws := set_cell 3 5 (VStr "Invoice #:") ws in
  inv <- randint 1000 9999 ;;
  let ws := set_cell 3 6 (VStr ("INV-" +:+ str_int inv)) ws in
  let ws := set_cell 4 5 (VStr "Date:") ws in
  day <- randint 1 31 ;;
  let ws := set_cell 4 6 (VStr ("5/" +:+ str_int day +:+ "/2025")) ws in
  let ws := set_cell 5 5 (VStr "Due Date:") ws in
  due <- randint 1 30 ;;
  let ws := set_cell 5 6 (VStr ("6/" +:+ str_int due +:+ "/2025")) ws in
  let headers := ["Item"; "Description"; "Quantity"; "Unit Price"; "Amount"] in
  let ws := set_row 8 1 (map VStr headers) ws in
  num_items <- randint 3 8 ;;
  st <- invoice_items (Z.to_nat num_items) 9 (VInt 0) ws ;;
  let '(row, total, ws) := st in
  let ws := set_cell (row + 1) 4 (VStr "Total:") ws in
  let ws := set_cell (row + 1) 5 total ws in
  ret ws.

Definition create_excel_document (E : env) (filename template_type : string) : M unit :=
  let ws := Worksheet ∅ [] in
  ws <-
    (if bool_decide (template_type = "data_analysis") then data_analysis_sheet ws
     else if bool_decide (template_type = "invoice") then invoice_sheet ws
     else ret ws) ;;
  save E filename (XlsxFile ws).

(** One paragraph of a PDF body: [pdf.multi_cell(0, 10, p); pdf.ln(5)] *)
Definition pdf_paragraphs (pdf : list pdf_op) (ps : list string) : list pdf_op :=
  pdf ++ flat_map (fun p => [MultiCell 0 10 p; Ln 5]) ps.

Definition report_sections : list string :=
  ["Executive Summary"; "Introduction"; "Methodology"; "Findings"; "Conclusion"].

(** One turn of the loop over the sections of a PDF report. *)
Definition pdf_section (E : env) (pdf : list pdf_op) (section : string)
  : M (list pdf_op) :=
  let pdf := pdf ++ [SetFont "Arial" "B" 14; Cell 200 10 section 1 "";
                     SetFont "Arial" "" 12] in
  n <- randint 1 3 ;;
  ps <- generate_paragraphs E n 5 ;;
  ret (pdf_paragraphs pdf ps).

Definition create_pdf_document (E : env) (filename template_type : string) : M unit :=
  let pdf := [AddPage; SetFont "Arial" "" 12] in
  pdf <-
    (if bool_decide (template_type = "memo") then
       let pdf := pdf ++ [SetFont "Arial" "B" 16; Cell 200 10 "MEMORANDUM" 1 "C"; Ln 10] in
       let pdf := pdf ++ [SetFont "Arial" "B" 12; Cell 30 10 "TO:" 0 ""; SetFont "Arial" "" 12] in
       audience <- choice audiences ;;
       let pdf := pdf ++ [Cell 160 10 ("All " +:+ audience) 1 ""] in
       let pdf := pdf ++ [SetFont "Arial" "B" 12; Cell 30 10 "FROM:" 0 ""; SetFont "Arial" "" 12] in
       name <- choice names ;;
       initial <- choice ascii_uppercase ;;
       let pdf := pdf ++ [Cell 160 10 (name +:+ " " +:+ initial +:+ ".") 1 ""] in
       let pdf := pdf ++ [SetFont "Arial" "B" 12; Cell 30 10 "DATE:" 0 ""; SetFont "Arial" "" 12] in
       day <- randint 1 31 ;;
       let pdf := pdf ++ [Cell 160 10 ("May " +:+ str_int day +:+ ", 2025") 1 ""] in
       let pdf := pdf ++ [SetFont "Arial" "B" 12; Cell 30 10 "SUBJECT:" 0 ""; SetFont "Arial" "" 12] in
       subject <- choice subjects ;;
       let pdf := pdf ++ [Cell 160 10 subject 1 ""; Ln 10] in
       ps <- generate_paragraphs E 4 5 ;;
       ret (pdf_paragraphs pdf ps)
     else if bool_decide (template_type = "report") then
       letters <- sample ascii_uppercase 3 ;;
       let pdf := pdf ++ [SetFont "Arial" "B" 16;
                          Cell 200 10 ("REPORT: " +:+ String.concat " " letters) 1 "C";
                          Ln 10] in
       fold_for report_sections (pdf_section E) pdf
     else ret pdf) ;;
  save E filename (PdfFile pdf).

Definition create_text_document (E : env) (filename template_type : string) : M unit :=
  open_w E filename ;;;
  if bool_decide (template_type = "memo") then
    fwrite filename ("MEMORANDUM" +:+ nl +:+ nl) ;;;
    audience <- choice audiences ;;
    fwrite filename ("TO: All " +:+ audience +:+ nl) ;;;
    name <- choice names ;;
    initial <- choice ascii_uppercase ;;
    fwrite filename ("FROM: " +:+ name +:+ " " +:+ initial +:+ "." +:+ nl) ;;;
    day <- randint 1 31 ;;
    fwrite filename ("DATE: May " +:+ str_int day +:+ ", 2025" +:+ nl) ;;;
    subject <- choice subjects ;;
    fwrite filename ("SUBJECT: " +:+ subject +:+ nl +:+ nl) ;;;
    ps <- generate_paragraphs E 4 5 ;;
    for_each ps (fun paragraph => fwrite filename (paragraph +:+ nl +:+ nl))
  else
    letters <- sample ascii_uppercase 3 ;;
    fwrite filename ("DOCUMENT: " +:+ String.concat " " letters +:+ nl +:+ nl) ;;;
    n <- randint 5 10 ;;
    ps <- generate_paragraphs E n 5 ;;
    for_each ps (fun paragraph => fwrite filename (paragraph +:+ nl +:+ nl)).

(** ** One unit *)

Definition OUTPUT_DIR : string := "synthetic_docs".

Definition DOCUMENT_TYPES : list (string * float) :=
  [("docx", 0.4); ("pdf", 0.3); ("xlsx", 0.2); ("txt", 0.1)]%float.

Definition DOCUMENT_TEMPLATES : list (string * float) :=
  [("report", 0.3); ("letter", 0.2); ("memo", 0.15); ("invoice", 0.15);
   ("data_analysis", 0.2)]%float.

Definition result : Type := gmap string pyval.

Definition success_result (doc_index : Z) (filename doc_type template_type : string)
  : result :=
  <["index" := VInt doc_index]>
    (<["filename" := VStr filename]>
       (<["type" := VStr doc_type]>
          (<["template" := VStr template_type]>
             (<["status" := VStr "success"]> ∅)))).

Definition failed_result (doc_index : Z) (e : exn) : result :=
  <["index" := VInt doc_index]>
    (<["error" := VStr (str_exn e)]>
       (<["status" := VStr "failed"]> ∅)).

(** The [if]/[elif] chain on [doc_type]. *)
Definition synthesize (E : env) (doc_type filename template_type : string) : M unit :=
  if bool_decide (doc_type = "docx") then create_word_document E filename template_type
  else if bool_decide (doc_type = "xlsx") then create_excel_document E filename template_type
  else if bool_decide (doc_type = "pdf") then create_pdf_document E filename template_type
  else if bool_decide (doc_type = "txt") then create_text_document E filename template_type
  else ret tt.

Definition doc_filename (doc_index : Z) (template_type rand_id doc_type : string)
  : string :=
  path_join OUTPUT_DIR
    ("doc_" +:+ format_07d doc_index +:+ "_" +:+ template_type +:+ "_" +:+ rand_id
       +:+ "." +:+ doc_type).

(** The statements before the [try]: the two weighted draws, the random
    suffix and the file name; the result is
    [(doc_type, template_type, filename)]. *)
Definition draw_request (doc_index : Z) : M (string * string * string) :=
  ts <- choices (map fst DOCUMENT_TYPES) (Some (map snd DOCUMENT_TYPES)) 1 ;;
  doc_type <- index ts 0 ;;
  ts <- choices (map fst DOCUMENT_TEMPLATES) (Some (map snd DOCUMENT_TEMPLATES)) 1 ;;
  template_type <- index ts 0 ;;
  cs <- choices ascii_lowercase_digits None 8 ;;
  let rand_id := String.concat "" cs in
  let filename := doc_filename doc_index template_type rand_id doc_type in
  ret (doc_type, template_type, filename).

Definition generate_document (E : env) (doc_index : Z) : M result :=
  request <- draw_request doc_index ;;
  let '(doc_type, template_type, filename) := request in
  try_except
    (synthesize E doc_type filename template_type ;;;
     ret (success_result doc_index filename doc_type template_type))
    (fun e => ret (failed_result doc_index e)).

(** ** The driver *)

(** [a / b] on numbers *)
Definition py_truediv (a b : pyval) : exn + pyval :=
  match a, b with
  | VInt x, VInt y =>
      if y =? 0 then inl (ZeroDivisionError "division by zero")
      else inr (VFloat (PrimFloat.div (float_of_Z x) (float_of_Z y)))
  | VInt x, VFloat y =>
      if PrimFloat.eqb y 0%float then inl (ZeroDivisionError "float division by zero")
      else inr (VFloat (PrimFloat.div (float_of_Z x) y))
  | VFloat x, VInt y =>
      if y =? 0 then inl (ZeroDivisionError "float division by zero")
      else inr (VFloat (PrimFloat.div x (float_of_Z y)))
  | VFloat x, VFloat y =>
      if PrimFloat.eqb y 0%float then inl (ZeroDivisionError "float division by zero")
      else inr (VFloat (PrimFloat.div x y))
  | _, _ => inl (Exception "unsupported operand type(s) for /")
  end.

Definition to_json (v : pyval) : json :=
  match v with
  | VNone => JNull
  | VInt z => JInt z
  | VFloat f => JFloat f
  | VStr s => JStr s
  end.

Definition lift {A} (r : exn + A) : M A :=
  match r with
  | inl e => raise e
  | inr a => ret a
  end.

(** [json.dump(j, f)] on the file opened at [path] *)
Definition dump (path : string) (j : json) : M unit :=
  fun w => (inr tt, World (draws w) (cursor w) (<[path := JsonFile j]> (files w))).

(** [l[a:b]] for [0 <= a] *)
Definition slice {A} (l : list A) (a b : Z) : list A :=
  take (Z.to_nat (b - a)) (drop (Z.to_nat a) l).

(** [executor.map(f, xs)]: the results come back in the order of [xs].  The
    workers draw from one oracle, one unit after the other. *)
Fixpoint map_m {A B} (f : A -> M B) (xs : list A) : M (list B) :=
  match xs with
  | [] => ret []
  | x :: xs' => y <- f x ;; ys <- map_m f xs' ;; ret (y :: ys)
  end.

(** [sum(1 for r in results if r["status"] == status)] *)
Fixpoint count_status (status : string) (results : list result) : exn + Z :=
  match results with
  | [] => inr 0
  | r :: rs =>
      match r !! "status" with
      | None => inl (KeyError "'status'")
      | Some v =>
          match count_status status rs with
          | inl e => inl e
          | inr n => inr (if py_eqb v (VStr status) then 1 + n else n)
          end
      end
  end.

(** [r.get(key)] *)
Definition get (r : result) (key : string) : pyval := default VNone (r !! key).

(** [sum(1 for r in results
         if r.get("status") == "success" and r.get(field) == value)] *)
Fixpoint count_matching (field value : string) (results : list result) : Z :=
  match results with
  | [] => 0
  | r :: rs =>
      if py_eqb (get r "status") (VStr "success") && py_eqb (get r field) (VStr value)
      then 1 + count_matching field value rs
      else count_matching field value rs
  end.

(** [{c: count(c) / success_count for c in categories}] *)
Fixpoint distribution (field : string) (categories : list string)
    (results : list result) (success_count : Z) : exn + list (string * json) :=
  match categories with
  | [] => inr []
  | c :: cs =>
      match py_truediv (VInt (count_matching field c results)) (VInt success_count) with
      | inl e => inl e
      | inr v =>
          match distribution field cs results success_count with
          | inl e => inl e
          | inr rest => inr ((c, to_json v) :: rest)
          end
      end
  end.

Definition batch_size : Z := 10000.

Definition checkpoint_due (every batch total_batches : Z) : bool :=
  ((batch + 1) mod every =? 0) || (batch =? total_batches - 1).

Definition checkpoint_path (completed : Z) : string :=
  path_join OUTPUT_DIR ("generation_report_" +:+ str_int completed +:+ ".json").

Definition final_path : string :=
  path_join OUTPUT_DIR "generation_report_final.json".

Definition write_checkpoint (E : env) (batch total_batches : Z)
    (results : list result) : M unit :=
  let path := checkpoint_path (batch + 1) in
  open_w E path ;;;
  success_count <- lift (count_status "success" results) ;;
  failed_count <- lift (count_status "failed" results) ;;
  dump path
    (JObj [("completed_batches", JInt (batch + 1));
           ("total_batches", JInt total_batches);
           ("documents_generated", JInt (Z.of_nat (length results)));
           ("success_count", JInt success_count);
           ("failed_count", JInt failed_count)]).

(** One turn of the loop over [range(total_batches)]; the state is [results]. *)
Definition run_batch (E : env) (NUM_DOCUMENTS total_batches : Z)
    (doc_indices : list Z) (results : list result) (batch : Z) : M (list result) :=
  let batch_start := batch * batch_size in
  let batch_end := Z.min ((batch + 1) * batch_size) NUM_DOCUMENTS in
  let batch_indices := slice doc_indices batch_start batch_end in
  batch_results <- map_m (generate_document E) batch_indices ;;
  let results := results ++ batch_results in
  (if checkpoint_due 10 batch total_batches
   then write_checkpoint E batch total_batches results
   else ret tt) ;;;
  ret results.

(** The loop of [main] over the batches. *)
Definition run_batches (E : env) (NUM_DOCUMENTS : Z) : M (list result) :=
  let doc_indices := seqZ 1 NUM_DOCUMENTS in
  let total_batches := (NUM_DOCUMENTS + batch_size - 1) / batch_size in
  fold_for (seqZ 0 total_batches)
    (run_batch E NUM_DOCUMENTS total_batches doc_indices) [].

(** What [main] prints at the end. *)
Record summary : Type := Summary {
  printed_generated : Z;
  printed_seconds : float;
  printed_average : pyval
}.

(** The statistics, the final report and the closing messages of [main]. *)
Definition final_report (E : env) (NUM_DOCUMENTS : Z) (total_time : float)
    (results : list result) : M summary :=
  success_count <- lift (count_status "success" results) ;;
  open_w E final_path ;;;
  documents_per_second <- lift (py_truediv (VInt NUM_DOCUMENTS) (VFloat total_time)) ;;
  types <- lift (distribution "type" (map fst DOCUMENT_TYPES) results success_count) ;;
  templates <- lift (distribution "template" (map fst DOCUMENT_TEMPLATES) results
                       success_count) ;;
  dump final_path
    (JObj [("total_documents", JInt NUM_DOCUMENTS);
           ("success_count", JInt success_count);
           ("failed_count", JInt (NUM_DOCUMENTS - success_count));
           ("time_taken_seconds", JFloat total_time);
           ("documents_per_second", to_json documents_per_second);
           ("document_type_distribution", JObj types);
           ("template_type_distribution", JObj templates)]) ;;;
  average <- lift (py_truediv (VInt success_count) (VFloat total_time)) ;;
  ret (Summary success_count total_time average).

(** [NUM_DOCUMENTS] is the module's constant (10 in the source, one million
    by its comment); [start_time] and [end_time] are the two readings of
    the clock. *)
Definition main (E : env) (NUM_DOCUMENTS : Z) (start_time end_time : float)
  : M summary :=
  results <- run_batches E NUM_DOCUMENTS ;;
  let total_time := PrimFloat.sub end_time start_time in
  final_report E NUM_DOCUMENTS total_time results.

(** The text a PDF shows: what its [cell] and [multi_cell] calls print. *)
Definition pdf_text (ops : list pdf_op) : list string :=
  flat_map (fun op => match op with
                      | Cell _ _ txt _ _ => [txt]
                      | MultiCell _ _ txt => [txt]
                      | _ => []
                      end) ops.

(** A world whose oracle replays a given list of draws, on an empty disk. *)
Definition world_of (l : list N) : world :=
  World (fun i => default 0%N (l !! i)) 0 ∅.

(** Draws for an invoice of three items; the first item has quantity 3 and
    a raw price that rounds to 10.1. *)
Definition invoice_draws : list N :=
  [0; 0; 0; 0; 0; 0; 0;
   0; 0; 2; 1838203929539;
   1; 1; 0; 0;
   2; 2; 0; 0]%N.

(** A line item of an invoice, as [(qty, price)], and its amount
    [qty * price]. *)
Definition amount_of (item : Z * float) : pyval :=
  py_mul (VInt (fst item)) (VFloat (snd item)).

(** A checkpoint file of [completed] batches out of [total]. *)
Definition is_checkpoint_file (completed total : Z) (f : file) : Prop :=
  exists documents succeeded failed : Z,
    f = JsonFile (JObj [("completed_batches", JInt completed);
                        ("total_batches", JInt total);
                        ("documents_generated", JInt documents);
                        ("success_count", JInt succeeded);
                        ("failed_count", JInt failed)]).

(** The batches, counted from 0, after which a checkpoint is due in a run
    of [total_batches] batches. *)
Definition due_batches (every total_batches : Z) : list Z :=
  List.filter (fun batch => checkpoint_due every batch total_batches)
    (seqZ 0 total_batches).

(** The two shapes of a result that [generate_document] builds. *)
Definition from_generate_document (r : result) : Prop :=
  (exists i e, r = failed_result i e) \/
  (exists i filename doc_type template_type,
      r = success_result i filename doc_type template_type /\
      doc_type ∈ map fst DOCUMENT_TYPES /\
      template_type ∈ map fst DOCUMENT_TEMPLATES).

(** [s.startswith(pre)] *)
Fixpoint starts_with (pre s : string) : bool :=
  match pre with
  | EmptyString => true
  | String c pre' =>
      match s with
      | String d s' => Ascii.eqb c d && starts_with pre' s'
      | EmptyString => false
      end
  end.

(** A sample environment: no corpus, and a disk that refuses every document
    but accepts the reports. *)
Definition env_disk_full : env :=
  Env (Some (Exception "Resource gutenberg not found")) (fun _ => inr [])
      (fun p => if starts_with "synthetic_docs/doc_" p
                then Some (OSError "No space left on device") else None).

(** The sum, over the categories, of the numerators of a distribution. *)
Definition total_matching (field : string) (categories : list string)
    (results : list result) : Z :=
  foldr (fun c acc => count_matching field c results + acc) 0 categories.

(** The entries of a distribution: each category with its share of the
    successful results. *)
Definition shares (field : string) (categories : list string)
    (results : list result) (success_count : Z) : list (string * json) :=
  map (fun c => (c, JFloat (PrimFloat.div
                              (float_of_Z (count_matching field c results))
                              (float_of_Z success_count)))) categories.

(** The final report as [main] dumps it. *)
Definition report_of (NUM_DOCUMENTS success_count : Z) (total_time : float)
    (results : list result) : json :=
  JObj [("total_documents", JInt NUM_DOCUMENTS);
        ("success_count", JInt success_count);
        ("failed_count", JInt (NUM_DOCUMENTS - success_count));
        ("time_taken_seconds", JFloat total_time);
        ("documents_per_second",
         JFloat (PrimFloat.div (float_of_Z NUM_DOCUMENTS) total_time));
        ("document_type_distribution",
         JObj (shares "type" (map fst DOCUMENT_TYPES) results success_count));
        ("template_type_distribution",
         JObj (shares "template" (map fst DOCUMENT_TEMPLATES) results success_count))].

(** [c.isdigit()] for an ASCII character *)
Definition is_digit (c : ascii) : bool :=
  let n := nat_of_ascii c in ((48 <=? n) && (n <=? 57))%nat.

Fixpoint all_digits (s : string) : bool :=
  match s with
  | EmptyString => true
  | String c s' => is_digit c && all_digits s'
  end.

(** [s.lstrip("0")] *)
Fixpoint lstrip_zeros (s : string) : string :=
  match s with
  | EmptyString => EmptyString
  | String c s' => if Ascii.eqb c "0" then lstrip_zeros s' else s
  end.

(** A decimal numeral as [str] prints it: digits only, not empty, and no
    zero in front unless it is "0". *)
Definition numeral (s : string) : Prop :=
  all_digits s = true /\ (s = "0" \/ (s <> "" /\ lstrip_zeros s = s)).


(** * Properties *)

(** ** Running a computation *)

Lemma bind_inr {A B} (c : M A) (k : A -> M B) w a w' :
  c w = (inr a, w') -> bind c k w = k a w'.
Proof. intros H. unfold bind. by rewrite H. Qed.

Lemma bind_inl {A B} (c : M A) (k : A -> M B) w e w' :
  c w = (inl e, w') -> bind c k w = (inl e, w').
Proof. intros H. unfold bind. by rewrite H. Qed.

Lemma try_except_inr {A} (c : M A) h w a w' :
  c w = (inr a, w') -> try_except c h w = (inr a, w').
Proof. intros H. unfold try_except. by rewrite H. Qed.

Lemma try_except_inl {A} (c : M A) h w e w' :
  c w = (inl e, w') -> try_except c h w = h e w'.
Proof. intros H. unfold try_except. by rewrite H. Qed.

(** A computation that leaves the files alone and cannot raise. *)
Definition pure_draw {A} (c : M A) (P : A -> Prop) : Prop :=
  forall w, exists a w', c w = (inr a, w') /\ P a /\ files w' = files w.

Lemma pure_draw_ret {A} (a : A) (P : A -> Prop) : P a -> pure_draw (ret a) P.
Proof. intros H w. by exists a, w. Qed.

Lemma pure_draw_bind {A B} (c : M A) (k : A -> M B) P Q :
  pure_draw c P -> (forall a, P a -> pure_draw (k a) Q) -> pure_draw (bind c k) Q.
Proof.
  intros Hc Hk w. destruct (Hc w) as (a & w1 & E1 & Pa & F1).
  destruct (Hk a Pa w1) as (b & w2 & E2 & Qb & F2).
  exists b, w2. rewrite (bind_inr _ _ _ _ _ E1). split; [done|]. split; [done|congruence].
Qed.

Lemma pure_draw_weaken {A} (c : M A) (P Q : A -> Prop) :
  pure_draw c P -> (forall a, P a -> Q a) -> pure_draw c Q.
Proof.
  intros Hc HPQ w. destruct (Hc w) as (a & w' & ? & ? & ?). exists a, w'. auto.
Qed.

Lemma next_draw_pure : pure_draw next_draw (fun _ => True).
Proof. intros w. by eexists _, _. Qed.

Lemma randbelow_pure n : 0 < n -> pure_draw (randbelow n) (fun j => 0 <= j < n).
Proof.
  intros Hn. unfold randbelow. eapply pure_draw_bind; [apply next_draw_pure|].
  intros r _. apply pure_draw_ret. by apply Z.mod_pos_bound.
Qed.

Lemma random_pure : pure_draw random (fun _ => True).
Proof.
  unfold random. eapply pure_draw_bind; [apply next_draw_pure|].
  intros r _. by apply pure_draw_ret.
Qed.

Lemma randint_pure a b : a <= b -> pure_draw (randint a b) (fun j => a <= j <= b).
Proof.
  intros Hab. unfold randint. eapply pure_draw_bind; [apply randbelow_pure; lia|].
  intros j Hj. apply pure_draw_ret. cbv beta in Hj. lia.
Qed.

Lemma uniform_pure a b : pure_draw (uniform a b) (fun _ => True).
Proof.
  unfold uniform. eapply pure_draw_bind; [apply random_pure|].
  intros u _. by apply pure_draw_ret.
Qed.

Lemma index_pure {A} (xs : list A) i :
  0 <= i < Z.of_nat (length xs) -> pure_draw (index xs i) (fun x => xs !! Z.to_nat i = Some x).
Proof.
  intros Hi. unfold index.
  destruct (xs !! Z.to_nat i) as [x|] eqn:Hx.
  - replace (0 <=? i) with true by (symmetry; apply Z.leb_le; lia).
    by apply pure_draw_ret.
  - apply lookup_ge_None in Hx. lia.
Qed.

Lemma choice_pure {A} (xs : list A) :
  xs <> [] -> pure_draw (choice xs) (fun x => x ∈ xs).
Proof.
  intros Hne. unfold choice. destruct xs as [|x0 xs0]; [done|].
  eapply pure_draw_bind; [apply randbelow_pure; simpl; lia|].
  intros j Hj. eapply pure_draw_weaken; [by apply index_pure|].
  intros x Hx. cbv beta in Hx. by eapply list_elem_of_lookup_2.
Qed.

Lemma repeat_collect_pure {A} (c : M A) (P : A -> Prop) n :
  pure_draw c P ->
  pure_draw (repeat_collect n c) (fun xs => length xs = n /\ Forall P xs).
Proof.
  intros Hc. induction n as [|n IH]; simpl.
  - by apply pure_draw_ret.
  - eapply pure_draw_bind; [apply Hc|]. intros x Px.
    eapply pure_draw_bind; [apply IH|]. intros xs [Hlen Hall].
    apply pure_draw_ret. simpl. split; [by rewrite Hlen | by constructor].
Qed.

(** The binary search answers within its bounds. *)
Lemma bisect_go_bounds fuel a x lo hi :
  (lo <= hi)%nat -> (hi < length a)%nat ->
  exists i, bisect_go fuel a x lo hi = Some i /\ (lo <= i <= hi)%nat.
Proof.
  revert lo hi. induction fuel as [|fuel IH]; intros lo hi Hle Hhi; cbn [bisect_go].
  - exists lo. split; [done|lia].
  - destruct (lo <? hi)%nat eqn:Hlt.
    + apply Nat.ltb_lt in Hlt.
      assert (Hmid : (lo <= (lo + hi) / 2 < hi)%nat).
      { split; [apply Nat.div_le_lower_bound | apply Nat.Div0.div_lt_upper_bound]; lia. }
      destruct (lookup_lt_is_Some_2 a ((lo + hi) / 2)%nat) as [v Hv]; [lia|].
      rewrite Hv. destruct (PrimFloat.ltb x v).
      * destruct (IH lo ((lo + hi) / 2)%nat) as (i & Hi & ?); [lia|lia|].
        exists i. split; [done|lia].
      * destruct (IH ((lo + hi) / 2 + 1)%nat hi) as (i & Hi & ?); [lia|lia|].
        exists i. split; [done|lia].
    + exists lo. split; [done|lia].
Qed.

(** The loop of the search has stopped when the fuel [hi - lo] is spent:
    more fuel does not change the answer. *)
Lemma bisect_go_enough fuel fuel' a x lo hi :
  (hi - lo <= fuel)%nat -> (hi - lo <= fuel')%nat ->
  bisect_go fuel a x lo hi = bisect_go fuel' a x lo hi.
Proof.
  revert fuel' lo hi. induction fuel as [|fuel IH]; intros [|fuel'] lo hi Hf Hf';
    cbn [bisect_go]; try done.
  - replace (lo <? hi)%nat with false; [done|]. symmetry. apply Nat.ltb_ge. lia.
  - replace (lo <? hi)%nat with false; [done|]. symmetry. apply Nat.ltb_ge. lia.
  - destruct (lo <? hi)%nat eqn:Hlt; [|done].
    apply Nat.ltb_lt in Hlt.
    assert (Hmid : (lo <= (lo + hi) / 2 < hi)%nat).
    { split; [apply Nat.div_le_lower_bound | apply Nat.Div0.div_lt_upper_bound]; lia. }
    destruct (a !! ((lo + hi) / 2)%nat) as [v|]; [|done].
    destruct (PrimFloat.ltb x v); apply IH; lia.
Qed.

(** A weighted draw of one element cannot raise once the weights pass the
    checks of [random.choices], and it yields an element of the population. *)
Lemma choices_weighted_pure {A} (population : list A) ws t :
  population <> [] ->
  length (accumulate ws) = length population ->
  accumulate ws !! (length population - 1)%nat = Some t ->
  PrimFloat.leb (PrimFloat.add t 0%float) 0%float = false ->
  isfinite (PrimFloat.add t 0%float) = true ->
  pure_draw (choices population (Some ws) 1)
    (fun xs => exists x, xs = [x] /\ x ∈ population).
Proof.
  intros Hne Hlen Ht Hpos Hfin. unfold choices.
  rewrite Hlen, Nat.eqb_refl. simpl negb. cbv iota.
  assert (Hn : (0 < length population)%nat) by (destruct population; simpl; [done|lia]).
  eapply pure_draw_bind.
  { apply index_pure. lia. }
  intros t' Ht'. simpl in Ht'.
  replace (Z.to_nat (Z.of_nat (length population) - 1)) with (length population - 1)%nat in Ht' by lia.
  assert (t' = t) as -> by congruence.
  rewrite Hpos, Hfin. simpl negb. cbv iota.
  eapply pure_draw_weaken.
  { apply (repeat_collect_pure _ (fun x => x ∈ population)).
    eapply pure_draw_bind; [apply random_pure|]. intros u _.
    unfold bisect.
    destruct (bisect_go_bounds (length population - 1 - 0) (accumulate ws)
                (PrimFloat.mul u (PrimFloat.add t 0%float)) 0 (length population - 1))
      as (i & Hi & Hbound); [lia|lia|].
    rewrite Hi.
    eapply pure_draw_weaken; [apply index_pure; lia|].
    intros x Hx. cbv beta in Hx. by eapply list_elem_of_lookup_2. }
  intros xs [Hl Hall]. destruct xs as [|x [|]]; simpl in Hl; try lia.
  exists x. split; [done|]. by inversion Hall.
Qed.

(** An unweighted draw of [k] elements. *)
Lemma choices_uniform_pure {A} (population : list A) k :
  population <> [] ->
  pure_draw (choices population None k)
    (fun xs => length xs = k /\ Forall (fun x => x ∈ population) xs).
Proof.
  intros Hne. unfold choices. apply repeat_collect_pure.
  eapply pure_draw_bind; [apply next_draw_pure|]. intros r _.
  assert (Hn : (0 < length population)%nat) by (destruct population; simpl; [done|lia]).
  assert (Hr : 0 <= Z.of_N r mod 2 ^ 53 < 2 ^ 53) by (apply Z.mod_pos_bound; lia).
  eapply pure_draw_weaken.
  { apply index_pure. split.
    - apply Z.div_pos; [nia|lia].
    - apply Z.div_lt_upper_bound; [lia|nia]. }
  intros x Hx. cbv beta in Hx. by eapply list_elem_of_lookup_2.
Qed.

(** ** One unit: the boundary of failure *)

Lemma type_draw_pure :
  pure_draw (choices (map fst DOCUMENT_TYPES) (Some (map snd DOCUMENT_TYPES)) 1)
    (fun xs => exists x, xs = [x] /\ x ∈ map fst DOCUMENT_TYPES).
Proof.
  eapply choices_weighted_pure;
    [done | reflexivity | vm_compute; reflexivity | vm_compute; reflexivity
    | vm_compute; reflexivity].
Qed.

Lemma template_draw_pure :
  pure_draw (choices (map fst DOCUMENT_TEMPLATES) (Some (map snd DOCUMENT_TEMPLATES)) 1)
    (fun xs => exists x, xs = [x] /\ x ∈ map fst DOCUMENT_TEMPLATES).
Proof.
  eapply choices_weighted_pure;
    [done | reflexivity | vm_compute; reflexivity | vm_compute; reflexivity
    | vm_compute; reflexivity].
Qed.

(** A file name of a unit lies in the output directory and starts with
    [doc_]. *)
Definition is_doc_path (p : string) : Prop :=
  exists rest, p = "synthetic_docs/doc_" +:+ rest.

Lemma doc_filename_is_doc_path i template_type rand_id doc_type :
  is_doc_path (doc_filename i template_type rand_id doc_type).
Proof. eexists. unfold doc_filename, path_join, OUTPUT_DIR. reflexivity. Qed.

(** The statements before the [try] cannot raise. *)
Lemma draw_request_pure i :
  pure_draw (draw_request i)
    (fun request =>
       let '(doc_type, template_type, filename) := request in
       doc_type ∈ map fst DOCUMENT_TYPES /\
       template_type ∈ map fst DOCUMENT_TEMPLATES /\
       is_doc_path filename).
Proof.
  unfold draw_request.
  eapply pure_draw_bind; [apply type_draw_pure|]. intros ? (doc_type & -> & Ht).
  eapply pure_draw_bind; [apply (pure_draw_ret doc_type (fun x => x = doc_type)); done|].
  intros ? ->.
  eapply pure_draw_bind; [apply template_draw_pure|]. intros ? (template_type & -> & Htp).
  eapply pure_draw_bind; [apply (pure_draw_ret template_type (fun x => x = template_type)); done|].
  intros ? ->.
  eapply pure_draw_bind; [apply (choices_uniform_pure ascii_lowercase_digits 8); done|].
  intros cs _. apply pure_draw_ret.
  split; [done|]. split; [done|]. apply doc_filename_is_doc_path.
Qed.

Lemma failed_result_lookup i e :
  failed_result i e !! "index" = Some (VInt i) /\
  failed_result i e !! "error" = Some (VStr (str_exn e)) /\
  failed_result i e !! "status" = Some (VStr "failed").
Proof. repeat split; reflexivity. Qed.

Lemma success_result_lookup i filename doc_type template_type :
  success_result i filename doc_type template_type !! "index" = Some (VInt i) /\
  success_result i filename doc_type template_type !! "filename" = Some (VStr filename) /\
  success_result i filename doc_type template_type !! "type" = Some (VStr doc_type) /\
  success_result i filename doc_type template_type !! "template" = Some (VStr template_type) /\
  success_result i filename doc_type template_type !! "status" = Some (VStr "success").
Proof. repeat split; reflexivity. Qed.

(** What [generate_document] returns, by the outcome of the synthesizer. *)
Lemma generate_document_cases E i w :
  exists doc_type template_type filename w1,
    draw_request i w = (inr (doc_type, template_type, filename), w1) /\
    doc_type ∈ map fst DOCUMENT_TYPES /\
    template_type ∈ map fst DOCUMENT_TEMPLATES /\
    is_doc_path filename /\
    files w1 = files w /\
    generate_document E i w =
      match synthesize E doc_type filename template_type w1 with
      | (inl e, w2) => (inr (failed_result i e), w2)
      | (inr _, w2) => (inr (success_result i filename doc_type template_type), w2)
      end.
Proof.
  destruct (draw_request_pure i w) as ([[doc_type template_type] filename] & w1 & Hreq & (Ht & Htp & Hp) & Hf).
  exists doc_type, template_type, filename, w1.
  repeat (split; [done|]).
  unfold generate_document. rewrite (bind_inr _ _ _ _ _ Hreq).
  unfold try_except, bind.
  by destruct (synthesize E doc_type filename template_type w1) as [[e|[]] w2].
Qed.

(** C3. For every unit index, an error raised by the dispatched synthesizer
    is caught at the unit boundary: [generate_document] then returns a
    result whose status is "failed" and whose error is the description of
    that error; when the synthesizer returns, the status is "success".  In
    both cases the call returns a result and raises nothing. *)
Theorem generate_document_isolates_failure (E : env) (doc_index : Z) (w : world) :
  exists doc_type template_type filename w1,
    draw_request doc_index w = (inr (doc_type, template_type, filename), w1) /\
    match synthesize E doc_type filename template_type w1 with
    | (inl e, w2) =>
        exists r, generate_document E doc_index w = (inr r, w2) /\
                  r !! "index" = Some (VInt doc_index) /\
                  r !! "status" = Some (VStr "failed") /\
                  r !! "error" = Some (VStr (str_exn e))
    | (inr _, w2) =>
        exists r, generate_document E doc_index w = (inr r, w2) /\
                  r !! "index" = Some (VInt doc_index) /\
                  r !! "status" = Some (VStr "success")
    end.
Proof.
  destruct (generate_document_cases E doc_index w)
    as (doc_type & template_type & filename & w1 & Hreq & _ & _ & _ & _ & Hgen).
  exists doc_type, template_type, filename, w1. split; [done|].
  destruct (synthesize E doc_type filename template_type w1) as [[e|u] w2].
  - exists (failed_result doc_index e). split; [done|].
    repeat split; reflexivity.
  - exists (success_result doc_index filename doc_type template_type). split; [done|].
    split; reflexivity.
Qed.

Definition failed_keys : gset string := list_to_set ["index"; "error"; "status"].
Definition success_keys : gset string :=
  list_to_set ["index"; "filename"; "type"; "template"; "status"].

Lemma failed_result_dom i e : dom (failed_result i e) = failed_keys.
Proof.
  reflexivity.
Qed.

Lemma success_result_dom i filename doc_type template_type :
  dom (success_result i filename doc_type template_type) = success_keys.
Proof.
  reflexivity.
Qed.

(** C10. A failed result holds the keys index, error and status and no
    other: the type, the template and the file name that were already
    drawn are left out.  A success result holds index, filename, type,
    template and status.  Every result of [generate_document] is of one of
    the two shapes, so a reader of the results finds type, template and
    filename only on the successes. *)
Theorem result_shapes (E : env) (doc_index : Z) (w : world) :
  (forall e, dom (failed_result doc_index e) = failed_keys) /\
  (forall filename doc_type template_type,
      dom (success_result doc_index filename doc_type template_type) = success_keys) /\
  match generate_document E doc_index w with
  | (inr r, _) =>
      (r !! "status" = Some (VStr "failed") /\ dom r = failed_keys /\
       r !! "type" = None /\ r !! "template" = None /\ r !! "filename" = None /\
       get r "type" = VNone /\ get r "template" = VNone)
      \/
      (r !! "status" = Some (VStr "success") /\ dom r = success_keys /\
       r !! "error" = None /\
       exists filename doc_type template_type,
         r !! "filename" = Some (VStr filename) /\
         r !! "type" = Some (VStr doc_type) /\
         r !! "template" = Some (VStr template_type))
  | (inl _, _) => False
  end.
Proof.
  split; [intros; apply failed_result_dom|].
  split; [intros; apply success_result_dom|].
  destruct (generate_document_cases E doc_index w)
    as (doc_type & template_type & filename & w1 & _ & _ & _ & _ & _ & ->).
  destruct (synthesize E doc_type filename template_type w1) as [[e|u] w2].
  - left. split; [reflexivity|]. split; [apply failed_result_dom|].
    repeat split; reflexivity.
  - right. split; [reflexivity|]. split; [apply success_result_dom|].
    split; [reflexivity|]. exists filename, doc_type, template_type.
    repeat split; reflexivity.
Qed.

(** ** The PDF synthesizer on a template it does not model *)

Lemma create_pdf_document_other E filename template_type w :
  template_type <> "memo" -> template_type <> "report" ->
  create_pdf_document E filename template_type w =
  save E filename (PdfFile [AddPage; SetFont "Arial" "" 12]) w.
Proof.
  intros Hm Hr. unfold create_pdf_document.
  rewrite (bool_decide_eq_false_2 _ Hm), (bool_decide_eq_false_2 _ Hr).
  reflexivity.
Qed.

(** C8, as stated, fails: for the template "letter" the PDF that is written
    is one blank page.  It shows no text at all, neither a title nor a
    paragraph, and no draw was consumed to generate one. *)
Lemma pdf_letter_is_a_blank_page :
  let path := "synthetic_docs/doc_0000007_letter_k3x9q2ab.pdf" in
  let out := create_pdf_document env_offline path "letter" world0 in
  fst out = inr tt /\
  files (snd out) !! path = Some (PdfFile [AddPage; SetFont "Arial" "" 12]) /\
  pdf_text [AddPage; SetFont "Arial" "" 12] = [] /\
  cursor (snd out) = cursor world0.
Proof. vm_compute. repeat split; reflexivity. Qed.

(** C8, amended. For every template other than "memo" and "report" the PDF
    synthesizer adds nothing to the page it opened: it draws nothing, asks
    for no paragraph, and saves a document of one blank page (the page and
    the default font, no title and no paragraph).  It fails only if saving
    fails. *)
Theorem create_pdf_document_fallback_is_blank (E : env) (filename template_type : string)
    (w : world) :
  template_type <> "memo" -> template_type <> "report" ->
  pdf_text [AddPage; SetFont "Arial" "" 12] = [] /\
  match io_fault E filename with
  | Some e => create_pdf_document E filename template_type w = (inl e, w)
  | None =>
      create_pdf_document E filename template_type w =
      (inr tt, World (draws w) (cursor w)
                 (<[filename := PdfFile [AddPage; SetFont "Arial" "" 12]]> (files w)))
  end.
Proof.
  intros Hm Hr. split; [reflexivity|].
  rewrite (create_pdf_document_other _ _ _ _ Hm Hr). unfold save.
  by destruct (io_fault E filename).
Qed.

Lemma create_pdf_document_fallback_is_blank_witness :
  "invoice" <> "memo" /\ "invoice" <> "report" /\
  (pdf_text [AddPage; SetFont "Arial" "" 12] = [] /\
   match io_fault env_offline "synthetic_docs/doc_0000001_invoice_aaaaaaaa.pdf" with
   | Some e =>
       create_pdf_document env_offline "synthetic_docs/doc_0000001_invoice_aaaaaaaa.pdf"
         "invoice" world0 = (inl e, world0)
   | None =>
       create_pdf_document env_offline "synthetic_docs/doc_0000001_invoice_aaaaaaaa.pdf"
         "invoice" world0 =
       (inr tt, World (draws world0) (cursor world0)
                  (<["synthetic_docs/doc_0000001_invoice_aaaaaaaa.pdf" :=
                       PdfFile [AddPage; SetFont "Arial" "" 12]]> (files world0)))
   end).
Proof.
  split; [discriminate|]. split; [discriminate|].
  apply (create_pdf_document_fallback_is_blank env_offline
           "synthetic_docs/doc_0000001_invoice_aaaaaaaa.pdf" "invoice" world0);
    discriminate.
Defined.

(** ** Sampling without replacement, and the fallback text *)

(** One turn of the selection from the pool: the live part of the pool
    loses exactly the selected element. *)
Lemma pool_step {A} (pool : list A) (n j : nat) (x y : A) :
  (0 < n <= length pool)%nat -> (j < n)%nat ->
  pool !! j = Some x -> pool !! (n - 1)%nat = Some y ->
  take n pool ≡ₚ x :: take (n - 1) (<[j := y]> pool).
Proof.
  intros Hn Hj Hx Hy.
  assert (Htake : take n pool = take (n - 1) pool ++ [y]).
  { replace n with (S (n - 1)) at 1 by lia. by apply take_S_r. }
  rewrite Htake. destruct (decide (j = n - 1)%nat) as [->|Hne].
  - assert (x = y) as -> by congruence.
    rewrite list_insert_id by done. by rewrite Permutation_app_comm.
  - rewrite take_insert_lt by lia.
    assert (Hl : take (n - 1) pool !! j = Some x).
    { rewrite lookup_take_lt by lia. done. }
    rewrite insert_take_drop by (apply lookup_lt_Some in Hl; done).
    rewrite <- (take_drop_middle _ _ _ Hl) at 1.
    rewrite <- !app_assoc. simpl.
    rewrite <- Permutation_middle. apply perm_skip.
    apply Permutation_app_head.
    by rewrite (Permutation_app_comm _ [y]).
Qed.

Lemma sample_pool_pure {A} (k : nat) : forall (pool : list A) (n : nat),
  (k <= n <= length pool)%nat ->
  pure_draw (sample_pool k pool n)
    (fun l => length l = k /\ exists rest, take n pool ≡ₚ l ++ rest).
Proof.
  induction k as [|k IH]; intros pool n Hk; cbn [sample_pool].
  - apply pure_draw_ret. split; [done|]. by exists (take n pool).
  - eapply pure_draw_bind; [apply randbelow_pure; lia|]. intros j Hj. cbv beta in Hj.
    eapply pure_draw_bind; [apply index_pure; lia|]. intros x Hx. cbv beta in Hx.
    eapply pure_draw_bind; [apply index_pure; lia|]. intros y Hy. cbv beta in Hy.
    replace (Z.to_nat (Z.of_nat n - 1)) with (n - 1)%nat in Hy by lia.
    eapply pure_draw_bind.
    { apply (IH (<[Z.to_nat j := y]> pool) (Nat.pred n)). rewrite length_insert. lia. }
    intros rest (Hlen & tl & Hperm). apply pure_draw_ret.
    split; [simpl; lia|]. exists tl.
    rewrite (pool_step pool n (Z.to_nat j) x y) by (done || lia).
    replace (n - 1)%nat with (Nat.pred n) by lia.
    simpl. by rewrite Hperm.
Qed.

(** [random.sample] with a count within the population cannot raise, and
    selects distinct positions: its result is part of a rearrangement of
    the population. *)
Lemma sample_pure {A} (population : list A) (k : Z) :
  0 <= k <= Z.of_nat (length population) ->
  pure_draw (sample population k)
    (fun l => length l = Z.to_nat k /\ exists rest, population ≡ₚ l ++ rest).
Proof.
  intros Hk. unfold sample.
  replace ((0 <=? k) && (k <=? Z.of_nat (length population))) with true
    by (symmetry; apply andb_true_iff; split; apply Z.leb_le; lia).
  eapply pure_draw_weaken; [apply sample_pool_pure; lia|].
  intros l (Hlen & rest & Hperm). split; [done|]. exists rest.
  by rewrite firstn_all in Hperm.
Qed.

Lemma sample_out_of_range {A} (population : list A) (k : Z) w :
  k < 0 \/ Z.of_nat (length population) < k ->
  sample population k w =
  (inl (ValueError "Sample larger than population or is negative"), w).
Proof.
  intros Hk. unfold sample.
  replace ((0 <=? k) && (k <=? Z.of_nat (length population))) with false; [done|].
  symmetry. apply andb_false_iff.
  destruct Hk; [left; apply Z.leb_gt | right; apply Z.leb_gt]; lia.
Qed.

Lemma fallback_text_NoDup : NoDup fallback_text.
Proof. apply (bool_decide_unpack _). by vm_compute. Qed.

Lemma fallback_text_nonempty : Forall (fun s => s <> "") fallback_text.
Proof. unfold fallback_text. repeat constructor; discriminate. Qed.

(** The [except] block, for a count that is not negative. *)
Lemma fallback_paragraphs_pure (num_paragraphs : Z) :
  0 <= num_paragraphs ->
  pure_draw (fallback_paragraphs num_paragraphs)
    (fun l => length l = Z.to_nat (Z.min num_paragraphs 15) /\
              NoDup l /\
              Forall (fun p => p ∈ fallback_text /\ p <> "") l).
Proof.
  intros Hk. unfold fallback_paragraphs.
  eapply pure_draw_weaken.
  { apply sample_pure. change (Z.of_nat (length fallback_text)) with 15. lia. }
  intros l (Hlen & rest & Hperm). change (Z.of_nat (length fallback_text)) with 15 in Hlen.
  split; [done|].
  assert (Hnd : NoDup (l ++ rest)) by (rewrite <- Hperm; apply fallback_text_NoDup).
  split; [by apply NoDup_app in Hnd as (? & _ & _)|].
  apply Forall_forall. intros p Hp.
  assert (Hin : p ∈ fallback_text) by (rewrite Hperm; apply elem_of_app; by left).
  split; [done|].
  by apply (proj1 (Forall_forall _ _) fallback_text_nonempty).
Qed.

(** C2, as stated, fails: with the corpus unavailable, a request for 16
    paragraphs is answered with 15 strings. *)
Lemma fallback_sixteen_gives_fifteen :
  fst (primary_paragraphs env_offline 16 5 world0)
    = inl (Exception "Resource gutenberg not found") /\
  exists l, fst (generate_paragraphs env_offline 16 5 world0) = inr l /\
            length l = 15%nat.
Proof. split; [reflexivity|]. eexists. split; [vm_compute; reflexivity|reflexivity]. Qed.

(** C2, amended. For every count [k >= 0] and every number of sentences, when
    the primary path raises, [generate_paragraphs] raises nothing and returns
    exactly [min(k, 15)] strings of the built-in list, all non-empty and
    pairwise distinct: [k] strings when [k] is at most 15, and 15 strings,
    without repetition, when [k] is larger. *)
Theorem generate_paragraphs_fallback (E : env) (num_paragraphs sentences_per_paragraph : Z)
    (w w1 : world) (e : exn) :
  0 <= num_paragraphs ->
  primary_paragraphs E num_paragraphs sentences_per_paragraph w = (inl e, w1) ->
  exists l w',
    generate_paragraphs E num_paragraphs sentences_per_paragraph w = (inr l, w') /\
    length l = Z.to_nat (Z.min num_paragraphs 15) /\
    NoDup l /\
    Forall (fun p => p ∈ fallback_text /\ p <> "") l.
Proof.
  intros Hk Hprim. unfold generate_paragraphs.
  rewrite (try_except_inl _ _ _ _ _ Hprim).
  destruct (fallback_paragraphs_pure num_paragraphs Hk w1) as (l & w' & Hrun & HP & _).
  by exists l, w'.
Qed.

Lemma generate_paragraphs_fallback_witness :
  0 <= 4 /\
  primary_paragraphs env_offline 4 5 world0
    = (inl (Exception "Resource gutenberg not found"), world0) /\
  exists l w',
    generate_paragraphs env_offline 4 5 world0 = (inr l, w') /\
    length l = Z.to_nat (Z.min 4 15) /\
    NoDup l /\
    Forall (fun p => p ∈ fallback_text /\ p <> "") l.
Proof.
  split; [discriminate|]. split; [reflexivity|].
  apply (generate_paragraphs_fallback env_offline 4 5 world0 world0
           (Exception "Resource gutenberg not found")); [discriminate|reflexivity].
Defined.

(** ** The invoice *)

Ltac cell_ne :=
  let H := fresh in
  intros H; pose proof (f_equal fst H); pose proof (f_equal snd H);
  simpl in *; (lia || congruence).

Lemma cells_set_cell r c v ws : cells (set_cell r c v ws) = <[(r, c) := v]> (cells ws).
Proof. reflexivity. Qed.

Lemma set_cell_lookup_eq r c v ws : cells (set_cell r c v ws) !! (r, c) = Some v.
Proof. rewrite cells_set_cell. apply lookup_insert_eq. Qed.

Lemma set_cell_lookup_ne r c v ws r' c' :
  (r, c) <> (r', c') -> cells (set_cell r c v ws) !! (r', c') = cells ws !! (r', c').
Proof. intros H. rewrite cells_set_cell. by apply lookup_insert_ne. Qed.

(** What the loop over the items leaves behind: one row per item, from the
    first row on, holding the quantity, the rounded unit price and their
    product; the running total has grown by the products, in order. *)
Definition items_written (row0 : Z) (items : list (Z * float)) (ws : worksheet) : Prop :=
  forall (i : nat) qty price, items !! i = Some (qty, price) ->
    cells ws !! (row0 + Z.of_nat i, 3) = Some (VInt qty) /\
    cells ws !! (row0 + Z.of_nat i, 4) = Some (VFloat price) /\
    cells ws !! (row0 + Z.of_nat i, 5) = Some (VFloat (PrimFloat.mul (float_of_Z qty) price)).

Definition item_drawn (item : Z * float) : Prop :=
  1 <= fst item <= 10 /\ exists raw, snd item = py_round2 raw.

Lemma invoice_items_pure (n : nat) : forall row total ws,
  pure_draw (invoice_items n row total ws)
    (fun st =>
       let '(row', total', ws') := st in
       exists items,
         length items = n /\
         Forall item_drawn items /\
         row' = row + Z.of_nat n /\
         total' = fold_left py_add (map amount_of items) total /\
         items_written row items ws' /\
         (forall r c, ~ (row <= r < row + Z.of_nat n) ->
                      cells ws' !! (r, c) = cells ws !! (r, c))).
Proof.
  induction n as [|n IH]; intros row total ws; cbn [invoice_items].
  - apply pure_draw_ret. exists [].
    repeat split; try done; try lia; intros i qty price Hi; by rewrite lookup_nil in Hi.
  - eapply pure_draw_bind; [apply choice_pure; done|]. intros letter _.
    eapply pure_draw_bind; [apply randint_pure; lia|]. intros number _.
    eapply pure_draw_bind; [apply (randint_pure 1 10); lia|]. intros qty Hqty.
    cbv beta in Hqty.
    eapply pure_draw_bind; [apply uniform_pure|]. intros raw _.
    eapply pure_draw_weaken; [apply IH|].
    intros [[row' total'] ws'] (items & Hlen & Hall & Hrow & Htot & Hw & Hframe).
    exists ((qty, py_round2 raw) :: items).
    split; [simpl; lia|].
    split; [constructor; [split; [done|by exists raw]|done]|].
    split; [lia|]. split; [done|]. split.
    + intros [|i] q p Hi.
      * simpl in Hi. injection Hi as <- <-.
        replace (row + Z.of_nat 0) with row by lia.
        rewrite !Hframe by lia.
        rewrite set_cell_lookup_ne by congruence.
        rewrite set_cell_lookup_ne by congruence.
        rewrite set_cell_lookup_eq.
        rewrite (set_cell_lookup_ne row 5) by congruence.
        rewrite set_cell_lookup_eq.
        rewrite set_cell_lookup_eq. done.
      * simpl in Hi. destruct (Hw i q p Hi) as (H3 & H4 & H5).
        replace (row + Z.of_nat (S i)) with (row + 1 + Z.of_nat i) by lia. done.
    + intros r c Hr. rewrite Hframe by lia.
      rewrite !set_cell_lookup_ne by cell_ne. done.
Qed.

Lemma invoice_sheet_pure ws0 :
  pure_draw (invoice_sheet ws0)
    (fun ws =>
       exists items : list (Z * float),
         (3 <= length items <= 8)%nat /\
         Forall item_drawn items /\
         items_written 9 items ws /\
         cells ws !! (10 + Z.of_nat (length items), 4) = Some (VStr "Total:") /\
         cells ws !! (10 + Z.of_nat (length items), 5)
           = Some (fold_left py_add (map amount_of items) (VInt 0))).
Proof.
  unfold invoice_sheet.
  eapply pure_draw_bind; [apply choice_pure; done|]. intros company _.
  eapply pure_draw_bind; [apply randint_pure; lia|]. intros street _.
  eapply pure_draw_bind; [apply randint_pure; lia|]. intros zip _.
  eapply pure_draw_bind; [apply randint_pure; lia|]. intros inv _.
  eapply pure_draw_bind; [apply randint_pure; lia|]. intros day _.
  eapply pure_draw_bind; [apply randint_pure; lia|]. intros due _.
  eapply pure_draw_bind; [apply (randint_pure 3 8); lia|]. intros num_items Hn.
  cbv beta in Hn.
  eapply pure_draw_bind; [apply invoice_items_pure|].
  intros [[row total] ws] (items & Hlen & Hall & Hrow & Htot & Hw & _).
  apply pure_draw_ret. exists items.
  assert (Hrow' : row + 1 = 10 + Z.of_nat (length items)) by lia.
  split; [lia|]. split; [done|]. split.
  - intros i qty price Hi.
    assert (Hi' : (i < length items)%nat) by (by eapply lookup_lt_Some).
    destruct (Hw i qty price Hi) as (H3 & H4 & H5).
    rewrite !set_cell_lookup_ne by cell_ne. done.
  - rewrite <- Hrow'. split.
    + rewrite set_cell_lookup_ne by congruence. apply set_cell_lookup_eq.
    + rewrite set_cell_lookup_eq. by rewrite Htot.
Qed.

(** C1, as stated, fails: an item of quantity 3 at the rounded unit price
    10.1 gets the amount 30.299999999999997, the double product, which is
    not [round(3 * 10.1, 2)], the double 30.3. *)
Lemma invoice_amount_is_not_rounded :
  let path := "synthetic_docs/doc_0000001_invoice_aaaaaaaa.xlsx" in
  let out := create_excel_document env_offline path "invoice" (world_of invoice_draws) in
  exists ws,
    files (snd out) !! path = Some (XlsxFile ws) /\
    cells ws !! (9, 3) = Some (VInt 3) /\
    cells ws !! (9, 4) = Some (VFloat 10.1) /\
    cells ws !! (9, 5) = Some (VFloat 30.299999999999997) /\
    py_round2 (PrimFloat.mul (float_of_Z 3) 10.1) = 30.3%float /\
    PrimFloat.eqb 30.299999999999997 30.3 = false.
Proof.
  eexists. split; [vm_compute; reflexivity|].
  repeat split; vm_compute; reflexivity.
Qed.

(** C1, amended. In every generated invoice there are between 3 and 8 line
    items, written from row 9 on.  The unit price of an item is a raw draw
    rounded to 2 decimals; its amount is the product quantity × unit price
    as Python computes it on doubles, and is not rounded again.  The total
    row, two rows below the last item, holds the sum of these amounts,
    added in order to 0, and is not rounded either. *)
Theorem invoice_amounts_and_total (E : env) (filename : string) (w : world) :
  exists (ws : worksheet) (items : list (Z * float)) (w1 : world),
    create_excel_document E filename "invoice" w = save E filename (XlsxFile ws) w1 /\
    files w1 = files w /\
    (3 <= length items <= 8)%nat /\
    Forall item_drawn items /\
    items_written 9 items ws /\
    cells ws !! (10 + Z.of_nat (length items), 4) = Some (VStr "Total:") /\
    cells ws !! (10 + Z.of_nat (length items), 5)
      = Some (fold_left py_add (map amount_of items) (VInt 0)).
Proof.
  destruct (invoice_sheet_pure (Worksheet ∅ []) w) as (ws & w1 & Hrun & (items & HP) & Hf).
  exists ws, items, w1. split; [|by split].
  unfold create_excel_document.
  rewrite bool_decide_eq_false_2 by discriminate.
  rewrite bool_decide_eq_true_2 by reflexivity.
  by rewrite (bind_inr _ _ _ _ _ Hrun).
Qed.

(** ** Which files a computation can touch *)

Definition writes_within {A} (P : string -> Prop) (c : M A) : Prop :=
  forall w p, ~ P p -> files (snd (c w)) !! p = files w !! p.

Lemma writes_ret {A} P (a : A) : writes_within P (ret a).
Proof. by intros w p _. Qed.

Lemma writes_raise {A} P e : writes_within P (@raise A e).
Proof. by intros w p _. Qed.

Lemma writes_bind {A B} P (c : M A) (k : A -> M B) :
  writes_within P c -> (forall a, writes_within P (k a)) -> writes_within P (bind c k).
Proof.
  intros Hc Hk w p Hp. specialize (Hc w p Hp). unfold bind.
  destruct (c w) as [[e|a] w1]; simpl in *; [done|].
  by rewrite (Hk a w1 p Hp).
Qed.

Lemma writes_try {A} P (c : M A) h :
  writes_within P c -> (forall e, writes_within P (h e)) -> writes_within P (try_except c h).
Proof.
  intros Hc Hh w p Hp. specialize (Hc w p Hp). unfold try_except.
  destruct (c w) as [[e|a] w1]; simpl in *; [|done].
  by rewrite (Hh e w1 p Hp).
Qed.

Lemma writes_pure {A} P (c : M A) Q : pure_draw c Q -> writes_within P c.
Proof.
  intros Hc w p _. destruct (Hc w) as (a & w' & -> & _ & Hf). simpl. by rewrite Hf.
Qed.

Lemma writes_bind_pure {A B} P (c : M A) (k : A -> M B) Q :
  pure_draw c Q -> (forall a, Q a -> writes_within P (k a)) -> writes_within P (bind c k).
Proof.
  intros Hc Hk w p Hp. destruct (Hc w) as (a & w' & Hrun & Qa & Hf).
  rewrite (bind_inr _ _ _ _ _ Hrun). rewrite (Hk a Qa w' p Hp). by rewrite Hf.
Qed.

Lemma writes_weaken {A} (P P' : string -> Prop) (c : M A) :
  (forall p, P p -> P' p) -> writes_within P c -> writes_within P' c.
Proof. intros HPP Hc w p Hp. apply Hc. intros HP. by apply Hp, HPP. Qed.

Lemma writes_save (P : string -> Prop) E path f : P path -> writes_within P (save E path f).
Proof.
  intros HP w p Hp. unfold save. destruct (io_fault E path); simpl; [done|].
  apply lookup_insert_ne. by intros ->.
Qed.

Lemma writes_fwrite (P : string -> Prop) path s : P path -> writes_within P (fwrite path s).
Proof.
  intros HP w p Hp. unfold fwrite. simpl. apply lookup_alter_ne. by intros ->.
Qed.

Lemma writes_dump (P : string -> Prop) path j : P path -> writes_within P (dump path j).
Proof.
  intros HP w p Hp. unfold dump. simpl. apply lookup_insert_ne. by intros ->.
Qed.

Lemma writes_lift {A} P (r : exn + A) : writes_within P (lift r).
Proof. destruct r; [apply writes_raise | apply writes_ret]. Qed.

Lemma writes_index {A} P (xs : list A) i : writes_within P (index xs i).
Proof.
  unfold index. destruct (if 0 <=? i then xs !! Z.to_nat i else None);
    [apply writes_ret | apply writes_raise].
Qed.

Lemma writes_next_draw P : writes_within P next_draw.
Proof. by intros w p _. Qed.

Lemma writes_randbelow P n : writes_within P (randbelow n).
Proof. apply writes_bind; [apply writes_next_draw | intros; apply writes_ret]. Qed.

Lemma writes_randint P a b : writes_within P (randint a b).
Proof. apply writes_bind; [apply writes_randbelow | intros; apply writes_ret]. Qed.

Lemma writes_choice {A} P (xs : list A) : writes_within P (choice xs).
Proof.
  unfold choice. destruct xs; [apply writes_raise|].
  apply writes_bind; [apply writes_randbelow | intros; apply writes_index].
Qed.

Lemma writes_for_each {A} P (xs : list A) body :
  (forall x, writes_within P (body x)) -> writes_within P (for_each xs body).
Proof.
  intros Hb. induction xs as [|x xs IH]; simpl; [apply writes_ret|].
  apply writes_bind; [apply Hb | by intros].
Qed.

Lemma writes_fold_for {A S} P (xs : list A) (body : S -> A -> M S) s :
  (forall s x, writes_within P (body s x)) -> writes_within P (fold_for xs body s).
Proof.
  intros Hb. revert s. induction xs as [|x xs IH]; intros s; simpl; [apply writes_ret|].
  apply writes_bind; [apply Hb | by intros].
Qed.

Lemma writes_repeat_collect {A} P n (c : M A) :
  writes_within P c -> writes_within P (repeat_collect n c).
Proof.
  intros Hc. induction n as [|n IH]; simpl; [apply writes_ret|].
  apply writes_bind; [done|]. intros x.
  apply writes_bind; [done|]. intros xs. apply writes_ret.
Qed.

Lemma writes_map_m {A B} P (f : A -> M B) xs :
  (forall x, writes_within P (f x)) -> writes_within P (map_m f xs).
Proof.
  intros Hf. induction xs as [|x xs IH]; simpl; [apply writes_ret|].
  apply writes_bind; [done|]. intros y.
  apply writes_bind; [done|]. intros ys. apply writes_ret.
Qed.

Lemma writes_sample_pool {A} P k : forall (pool : list A) n,
  writes_within P (sample_pool k pool n).
Proof.
  induction k as [|k IH]; intros pool n; simpl; [apply writes_ret|].
  apply writes_bind; [apply writes_randbelow|]. intros j.
  apply writes_bind; [apply writes_index|]. intros x.
  apply writes_bind; [apply writes_index|]. intros y.
  apply writes_bind; [apply IH|]. intros rest. apply writes_ret.
Qed.

Lemma writes_sample {A} P (population : list A) k : writes_within P (sample population k).
Proof.
  unfold sample. destruct (_ && _); [apply writes_sample_pool | apply writes_raise].
Qed.

Lemma writes_generate_paragraphs P E k s : writes_within P (generate_paragraphs E k s).
Proof.
  unfold generate_paragraphs, primary_paragraphs, fallback_paragraphs.
  apply writes_try; [|intros; apply writes_sample].
  apply writes_bind.
  { destruct (nltk_setup E); [apply writes_raise | apply writes_ret]. }
  intros _. destruct (bool_decide _); [apply writes_raise|].
  apply writes_repeat_collect.
  apply writes_bind; [apply writes_sample | intros; apply writes_ret].
Qed.

Lemma writes_uniform P a b : writes_within P (uniform a b).
Proof. eapply writes_pure, uniform_pure. Qed.

Ltac writes_step :=
  lazymatch goal with
  | |- writes_within _ (ret _) => apply writes_ret
  | |- writes_within _ (raise _) => apply writes_raise
  | |- writes_within _ (generate_paragraphs _ _ _) => apply writes_generate_paragraphs
  | |- writes_within _ (sample _ _) => apply writes_sample
  | |- writes_within _ (choice _) => apply writes_choice
  | |- writes_within _ (randint _ _) => apply writes_randint
  | |- writes_within _ (uniform _ _) => apply writes_uniform
  | |- writes_within _ (index _ _) => apply writes_index
  | |- writes_within _ (save _ _ _) => apply writes_save; reflexivity
  | |- writes_within _ (open_w _ _) => apply writes_save; reflexivity
  | |- writes_within _ (fwrite _ _) => apply writes_fwrite; reflexivity
  | |- writes_within _ (for_each _ _) => apply writes_for_each; intros
  | |- writes_within _ (fold_for _ _ _) => apply writes_fold_for; intros
  | |- writes_within _ (repeat_collect _ _) => apply writes_repeat_collect
  | |- writes_within _ (bind _ _) => apply writes_bind; [|intros]
  | |- writes_within _ (if ?b then _ else _) => destruct b
  | |- writes_within _ (match ?x with _ => _ end) => destruct x
  end.

Lemma writes_invoice_items P n : forall row total ws,
  writes_within P (invoice_items n row total ws).
Proof.
  induction n as [|n IH]; intros row total ws; cbn [invoice_items]; [apply writes_ret|].
  repeat first [apply IH | writes_step].
Qed.

(** A synthesizer touches no file but the one it is asked to write. *)
Lemma writes_create_word_document E filename template_type :
  writes_within (fun p => p = filename) (create_word_document E filename template_type).
Proof. unfold create_word_document. repeat writes_step. Qed.

Lemma writes_create_excel_document E filename template_type :
  writes_within (fun p => p = filename) (create_excel_document E filename template_type).
Proof.
  unfold create_excel_document, data_analysis_sheet, invoice_sheet, region_row.
  repeat first [apply writes_invoice_items | writes_step].
Qed.

Lemma writes_create_pdf_document E filename template_type :
  writes_within (fun p => p = filename) (create_pdf_document E filename template_type).
Proof. unfold create_pdf_document, pdf_section. repeat writes_step. Qed.

Lemma writes_create_text_document E filename template_type :
  writes_within (fun p => p = filename) (create_text_document E filename template_type).
Proof. unfold create_text_document. repeat writes_step. Qed.

Lemma writes_synthesize E doc_type filename template_type :
  writes_within (fun p => p = filename) (synthesize E doc_type filename template_type).
Proof.
  unfold synthesize.
  repeat (destruct (bool_decide _));
    auto using writes_create_word_document, writes_create_excel_document,
      writes_create_pdf_document, writes_create_text_document, writes_ret.
Qed.

(** A unit touches no file outside the documents of the output directory. *)
Lemma writes_generate_document E doc_index :
  writes_within is_doc_path (generate_document E doc_index).
Proof.
  unfold generate_document.
  eapply writes_bind_pure; [apply draw_request_pure|].
  intros [[doc_type template_type] filename] (_ & _ & Hp).
  apply writes_try; [|intros; apply writes_ret].
  apply writes_bind; [|intros; apply writes_ret].
  eapply writes_weaken; [|apply writes_synthesize].
  by intros p ->.
Qed.

(** ** The names of the checkpoint files *)

Lemma append_inj_l (p x y : string) : p +:+ x = p +:+ y -> x = y.
Proof. induction p as [|c p IH]; simpl; [done|]. intros [= H]. by apply IH. Qed.

Lemma length_append (x y : string) :
  String.length (x +:+ y) = (String.length x + String.length y)%nat.
Proof. induction x as [|c x IH]; simpl; [done|]. by rewrite IH. Qed.

Lemma append_inj_r (s x y : string) : x +:+ s = y +:+ s -> x = y.
Proof.
  revert y. induction x as [|c x IH]; intros [|d y] H; simpl in H.
  - done.
  - apply (f_equal String.length) in H. rewrite !length_append in H. simpl in H. lia.
  - apply (f_equal String.length) in H. rewrite !length_append in H. simpl in H. lia.
  - injection H as -> H. f_equal. by apply IH.
Qed.

Lemma checkpoint_path_inj m m' : checkpoint_path m = checkpoint_path m' -> m = m'.
Proof.
  unfold checkpoint_path, path_join, str_int. intros H.
  do 3 apply append_inj_l in H. apply append_inj_r in H.
  by apply (inj pretty) in H.
Qed.

Lemma checkpoint_path_not_doc m : ~ is_doc_path (checkpoint_path m).
Proof. intros [rest H]. unfold checkpoint_path, path_join, OUTPUT_DIR in H. simpl in H. discriminate. Qed.

(** ** One batch *)

Lemma bind_inr_inv {A B} (c : M A) (k : A -> M B) w b w' :
  bind c k w = (inr b, w') -> exists a w1, c w = (inr a, w1) /\ k a w1 = (inr b, w').
Proof.
  unfold bind. destruct (c w) as [[e|a] w1]; [done|]. intros H. by exists a, w1.
Qed.

Lemma lift_inr_inv {A} (r : exn + A) w a w' :
  lift r w = (inr a, w') -> r = inr a /\ w' = w.
Proof. destruct r; simpl; unfold raise, ret; intros [= ? ?]; by subst. Qed.

Lemma write_checkpoint_inr E batch total_batches results w w' :
  write_checkpoint E batch total_batches results w = (inr tt, w') ->
  (exists f, files w' !! checkpoint_path (batch + 1) = Some f /\
             is_checkpoint_file (batch + 1) total_batches f) /\
  (forall p, p <> checkpoint_path (batch + 1) -> files w' !! p = files w !! p).
Proof.
  unfold write_checkpoint. intros H.
  apply bind_inr_inv in H as ([] & w1 & Hopen & H).
  apply bind_inr_inv in H as (s & w2 & Hs & H). apply lift_inr_inv in Hs as [_ ->].
  apply bind_inr_inv in H as (f & w3 & Hf & H). apply lift_inr_inv in Hf as [_ ->].
  unfold dump in H. injection H as <-. simpl.
  unfold open_w, save in Hopen.
  destruct (io_fault E (checkpoint_path (batch + 1))); [done|].
  injection Hopen as <-. simpl. split.
  - eexists. split; [apply lookup_insert_eq|]. by eexists _, _, _.
  - intros p Hp. by rewrite !lookup_insert_ne.
Qed.

(** Over one batch, the checkpoint of that batch appears if it is due; no
    other checkpoint file changes. *)
Lemma run_batch_checkpoints E N B idx results batch w results' w' :
  run_batch E N B idx results batch w = (inr results', w') ->
  (forall m, m <> batch + 1 ->
             files w' !! checkpoint_path m = files w !! checkpoint_path m) /\
  (if checkpoint_due 10 batch B
   then exists f, files w' !! checkpoint_path (batch + 1) = Some f /\
                  is_checkpoint_file (batch + 1) B f
   else files w' !! checkpoint_path (batch + 1) = files w !! checkpoint_path (batch + 1)).
Proof.
  unfold run_batch. intros H.
  apply bind_inr_inv in H as (batch_results & w1 & Hmap & H).
  assert (Hdocs : forall m, files w1 !! checkpoint_path m = files w !! checkpoint_path m).
  { intros m.
    pose proof (writes_map_m is_doc_path (generate_document E)
                  (slice idx (batch * batch_size) (Z.min ((batch + 1) * batch_size) N))
                  (writes_generate_document E) w (checkpoint_path m)
                  (checkpoint_path_not_doc m)) as Hw.
    by rewrite Hmap in Hw. }
  apply bind_inr_inv in H as ([] & w2 & Hck & H).
  injection H as _ <-.
  destruct (checkpoint_due 10 batch B).
  - apply write_checkpoint_inr in Hck as [Hnew Hother]. split; [|done].
    intros m Hm. rewrite Hother; [apply Hdocs|].
    intros Heq. by apply checkpoint_path_inj in Heq.
  - injection Hck as <-. split; [intros; apply Hdocs | apply Hdocs].
Qed.

(** Over the batches [a], [a + 1], ..., [a + n - 1]: the checkpoint of each
    due batch is in its own file at the end, and no other checkpoint file
    has changed. *)
Lemma fold_run_batch_checkpoints E N B idx (n : nat) :
  forall a results w results' w',
    fold_for (seqZ a (Z.of_nat n)) (run_batch E N B idx) results w = (inr results', w') ->
    forall m,
      (a < m <= a + Z.of_nat n -> checkpoint_due 10 (m - 1) B = true ->
       exists f, files w' !! checkpoint_path m = Some f /\ is_checkpoint_file m B f) /\
      (~ (a < m <= a + Z.of_nat n) \/ checkpoint_due 10 (m - 1) B = false ->
       files w' !! checkpoint_path m = files w !! checkpoint_path m).
Proof.
  induction n as [|n IH]; intros a results w results' w' H m.
  - simpl in H. injection H as _ <-. split; [lia|done].
  - rewrite seqZ_cons in H by lia.
    replace (Z.pred (Z.of_nat (S n))) with (Z.of_nat n) in H by lia.
    cbn [fold_for] in H.
    apply bind_inr_inv in H as (results1 & w1 & Hb & H).
    apply run_batch_checkpoints in Hb as [Hother Hthis].
    destruct (IH _ _ _ _ _ H m) as [IH1 IH2].
    destruct (decide (m = a + 1)) as [->|Hm].
    + replace (a + 1 - 1) with a in * by lia. split.
      * intros _ Hdue. rewrite Hdue in Hthis. rewrite IH2 by lia. done.
      * intros [Hout|Hdue]; [lia|]. rewrite Hdue in Hthis. rewrite IH2 by lia. done.
    + split.
      * intros Hr Hdue. apply IH1; [lia|done].
      * intros Hc. rewrite IH2, Hother; [done|done|].
        destruct Hc as [Hout|Hdue]; [left; lia | by right].
Qed.

(** ** The run as a whole *)

Lemma generate_document_total E i w :
  exists r w', generate_document E i w = (inr r, w') /\ from_generate_document r.
Proof.
  destruct (generate_document_cases E i w)
    as (doc_type & template_type & filename & w1 & _ & Ht & Htp & _ & _ & ->).
  destruct (synthesize E doc_type filename template_type w1) as [[e|u] w2].
  - eexists _, _. split; [done|]. left. by eexists _, _.
  - eexists _, _. split; [done|]. right. by eexists _, _, _, _.
Qed.

Lemma map_m_generate_document_total E xs : forall w,
  exists rs w', map_m (generate_document E) xs w = (inr rs, w') /\
                Forall from_generate_document rs.
Proof.
  induction xs as [|x xs IH]; intros w; simpl.
  - by exists [], w.
  - destruct (generate_document_total E x w) as (r & w1 & Hr & Hwf).
    destruct (IH w1) as (rs & w2 & Hrs & Hall).
    exists (r :: rs), w2. rewrite (bind_inr _ _ _ _ _ Hr), (bind_inr _ _ _ _ _ Hrs).
    split; [done|by constructor].
Qed.

Lemma from_generate_document_status r :
  from_generate_document r ->
  r !! "status" = Some (VStr "success") \/ r !! "status" = Some (VStr "failed").
Proof.
  intros [(i & e & ->)|(i & f & t & tp & -> & _)]; [by right | by left].
Qed.

Lemma count_status_total status results :
  Forall from_generate_document results ->
  exists n, count_status status results = inr n.
Proof.
  induction 1 as [|r rs Hr _ IH]; simpl; [by exists 0|].
  destruct IH as [n ->].
  destruct (from_generate_document_status r Hr) as [-> | ->]; by eexists.
Qed.

Lemma write_checkpoint_total E batch B results w :
  io_fault E (checkpoint_path (batch + 1)) = None ->
  Forall from_generate_document results ->
  exists w', write_checkpoint E batch B results w = (inr tt, w').
Proof.
  intros Hio Hall. unfold write_checkpoint, open_w, save, bind. rewrite Hio.
  destruct (count_status_total "success" results Hall) as [s ->].
  destruct (count_status_total "failed" results Hall) as [f ->].
  simpl. by eexists.
Qed.

Lemma run_batch_total E N B idx results batch w :
  io_fault E (checkpoint_path (batch + 1)) = None ->
  Forall from_generate_document results ->
  exists results' w',
    run_batch E N B idx results batch w = (inr results', w') /\
    Forall from_generate_document results'.
Proof.
  intros Hio Hall. unfold run_batch.
  destruct (map_m_generate_document_total E
              (slice idx (batch * batch_size) (Z.min ((batch + 1) * batch_size) N)) w)
    as (rs & w1 & Hrs & Hrsall).
  rewrite (bind_inr _ _ _ _ _ Hrs).
  assert (Hall' : Forall from_generate_document (results ++ rs)) by (by apply Forall_app).
  destruct (checkpoint_due 10 batch B).
  - destruct (write_checkpoint_total E batch B (results ++ rs) w1 Hio Hall') as [w2 Hw].
    rewrite (bind_inr _ _ _ _ _ Hw). by eexists _, _.
  - by eexists _, _.
Qed.

(** When the disk accepts the checkpoint files, the loop over the batches
    runs to its end, whatever the synthesizers do. *)
Lemma run_batches_total E N w :
  (forall m, io_fault E (checkpoint_path m) = None) ->
  exists results w',
    run_batches E N w = (inr results, w') /\ Forall from_generate_document results.
Proof.
  intros Hio. unfold run_batches.
  generalize (seqZ 0 ((N + batch_size - 1) / batch_size)) as batches.
  generalize (@nil result) (Forall_nil_2 from_generate_document) w.
  intros results Hall w0 batches. revert results Hall w0.
  induction batches as [|b bs IH]; intros results Hall w0; simpl.
  - by exists results, w0.
  - destruct (run_batch_total E N ((N + batch_size - 1) / batch_size) (seqZ 1 N)
                results b w0 (Hio _) Hall) as (r1 & w1 & Hr & Hall1).
    rewrite (bind_inr _ _ _ _ _ Hr). by apply IH.
Qed.

(** The results that the loop returns were all built by [generate_document]. *)
Lemma run_batches_results E N w results w' :
  run_batches E N w = (inr results, w') -> Forall from_generate_document results.
Proof.
  unfold run_batches.
  generalize (seqZ 0 ((N + batch_size - 1) / batch_size)) as batches.
  generalize (@nil result) (Forall_nil_2 from_generate_document) w.
  intros results0 Hall w0 batches. revert results0 Hall w0.
  induction batches as [|b bs IH]; intros results0 Hall w0 H; simpl in H.
  - by injection H as <- _.
  - apply bind_inr_inv in H as (r1 & w1 & Hb & H).
    apply (IH r1) in H; [done|].
    unfold run_batch in Hb.
    apply bind_inr_inv in Hb as (rs & w2 & Hrs & Hb).
    apply bind_inr_inv in Hb as ([] & w3 & _ & Hb). injection Hb as <- _.
    apply Forall_app. split; [done|].
    destruct (map_m_generate_document_total E
                (slice (seqZ 1 N) (b * batch_size) (Z.min ((b + 1) * batch_size) N)) w0)
      as (rs' & w2' & Hrs' & Hall').
    congruence.
Qed.

(** ** Counting the checkpoints *)

Lemma div_succ (K n : Z) :
  0 < K -> 0 <= n ->
  (n + 1) / K = n / K + (if (n + 1) mod K =? 0 then 1 else 0).
Proof.
  intros HK Hn.
  pose proof (Z.div_mod n K ltac:(lia)). pose proof (Z.mod_pos_bound n K HK).
  pose proof (Z.div_mod (n + 1) K ltac:(lia)). pose proof (Z.mod_pos_bound (n + 1) K HK).
  destruct (Z.eqb_spec ((n + 1) mod K) 0); nia.
Qed.

Lemma count_multiples (K : Z) (n : nat) :
  0 < K ->
  Z.of_nat (length (List.filter (fun b => (b + 1) mod K =? 0) (seqZ 0 (Z.of_nat n))))
  = Z.of_nat n / K.
Proof.
  intros HK. induction n as [|n IH].
  - simpl. by rewrite Z.div_0_l by lia.
  - rewrite seqZ_S, List.filter_app, length_app, Nat2Z.inj_add, IH.
    replace (Z.of_nat (S n)) with (Z.of_nat n + 1) by lia.
    rewrite div_succ by lia. cbn [List.filter].
    replace (0 + Z.of_nat n + 1) with (Z.of_nat n + 1) by lia.
    by destruct (Z.eqb_spec ((Z.of_nat n + 1) mod K) 0).
Qed.

(** In a run of [B] batches with a checkpoint every [K] batches, the
    number of batches after which a checkpoint is due. *)
Lemma length_due_batches (K B : Z) :
  0 < K -> 0 <= B ->
  Z.of_nat (length (due_batches K B)) = B / K + (if B mod K =? 0 then 0 else 1).
Proof.
  intros HK HB. unfold due_batches.
  destruct (decide (B = 0)) as [->|HB0].
  { rewrite Z.div_0_l, Z.mod_0_l by lia. reflexivity. }
  assert (seqZ 0 B = seqZ 0 (Z.of_nat (Z.to_nat (B - 1)))
                       ++ [0 + Z.of_nat (Z.to_nat (B - 1))]) as ->.
  { rewrite <- seqZ_S. f_equal. lia. }
  rewrite List.filter_app, length_app, Nat2Z.inj_add.
  rewrite (List.filter_ext_in _ (fun b => (b + 1) mod K =? 0)).
  2:{ intros b Hb. apply list_elem_of_In, elem_of_seqZ in Hb.
      unfold checkpoint_due.
      replace (b =? B - 1) with false by (symmetry; apply Z.eqb_neq; lia).
      apply orb_false_r. }
  rewrite count_multiples by done.
  replace (0 + Z.of_nat (Z.to_nat (B - 1))) with (B - 1) by lia.
  cbn [List.filter]. unfold checkpoint_due at 1.
  rewrite Z.eqb_refl, orb_true_r. cbn [length].
  replace (Z.of_nat (Z.to_nat (B - 1))) with (B - 1) by lia.
  pose proof (div_succ K (B - 1) HK ltac:(lia)) as Hd.
  replace (B - 1 + 1) with B in Hd by lia.
  destruct (Z.eqb_spec (B mod K) 0); lia.
Qed.

Lemma elem_of_due_batches K B b :
  b ∈ due_batches K B <-> 0 <= b < B /\ checkpoint_due K b B = true.
Proof.
  unfold due_batches. rewrite list_elem_of_In, List.filter_In, <- list_elem_of_In.
  rewrite elem_of_seqZ. split; intros [? ?]; split; (done || lia).
Qed.

(** ** Checkpoints of a run *)

Lemma run_batches_checkpoints E N w results w' :
  run_batches E N w = (inr results, w') ->
  forall m,
    (1 <= m <= (N + batch_size - 1) / batch_size ->
     checkpoint_due 10 (m - 1) ((N + batch_size - 1) / batch_size) = true ->
     exists f, files w' !! checkpoint_path m = Some f /\
               is_checkpoint_file m ((N + batch_size - 1) / batch_size) f) /\
    (~ (1 <= m <= (N + batch_size - 1) / batch_size) \/
     checkpoint_due 10 (m - 1) ((N + batch_size - 1) / batch_size) = false ->
     files w' !! checkpoint_path m = files w !! checkpoint_path m).
Proof.
  unfold run_batches. set (B := (N + batch_size - 1) / batch_size). intros H m.
  destruct (decide (0 <= B)) as [HB|HB].
  - replace B with (Z.of_nat (Z.to_nat B)) in H at 1 by lia.
    destruct (fold_run_batch_checkpoints _ _ _ _ _ _ _ _ _ _ H m) as [H1 H2].
    split.
    + intros Hm Hdue. apply H1; [lia|done].
    + intros Hc. apply H2. destruct Hc as [Hout|Hdue]; [left; lia | by right].
  - rewrite seqZ_nil in H by lia. simpl in H. injection H as _ <-.
    split; [lia|done].
Qed.

(** C6. In a run of [B] batches, the checkpoint file of the batch numbered
    [m] (counting from 1) is written exactly when [m] is a multiple of the
    interval or [m] is the last batch; the interval of the code is 10.  For
    every interval [K] the number of batches after which a checkpoint is due
    is [B / K], plus one if [B] is not a multiple of [K]. *)
Theorem checkpoints_written_when_due (E : env) (N : Z) (w w' : world)
    (results : list result) :
  0 <= N ->
  (forall m, files w !! checkpoint_path m = None) ->
  run_batches E N w = (inr results, w') ->
  let B := (N + batch_size - 1) / batch_size in
  (forall m, is_Some (files w' !! checkpoint_path m) <->
             1 <= m <= B /\ ((m mod 10 =? 0) || (m =? B)) = true) /\
  (forall m, is_Some (files w' !! checkpoint_path m) <-> m - 1 ∈ due_batches 10 B) /\
  (forall K, 0 < K ->
             Z.of_nat (length (due_batches K B))
             = B / K + (if B mod K =? 0 then 0 else 1)).
Proof.
  intros HN Hinit Hrun B.
  assert (HB : 0 <= B) by (apply Z.div_pos; unfold batch_size; lia).
  assert (Hiff : forall m, is_Some (files w' !! checkpoint_path m) <->
                           1 <= m <= B /\ checkpoint_due 10 (m - 1) B = true).
  { intros m. destruct (run_batches_checkpoints E N w results w' Hrun m) as [H1 H2].
    fold B in H1, H2. split.
    - intros Hsome.
      destruct (decide (1 <= m <= B)) as [Hm|Hm].
      + destruct (checkpoint_due 10 (m - 1) B) eqn:Hdue; [done|].
        rewrite H2, Hinit in Hsome by (by right). by destruct Hsome.
      + rewrite H2, Hinit in Hsome by (by left). by destruct Hsome.
    - intros [Hm Hdue]. destruct (H1 Hm Hdue) as (f & -> & _). by eexists. }
  split; [|split].
  - intros m. rewrite Hiff. unfold checkpoint_due.
    replace (m - 1 + 1) with m by lia.
    replace (m - 1 =? B - 1) with (m =? B); [done|].
    destruct (Z.eqb_spec m B), (Z.eqb_spec (m - 1) (B - 1)); (done || lia).
  - intros m. rewrite Hiff, elem_of_due_batches.
    split; intros [? ?]; split; (done || lia).
  - intros K HK. by apply length_due_batches.
Qed.

Lemma checkpoints_written_when_due_witness :
  exists results w',
    0 <= 10 /\
    (forall m, files world0 !! checkpoint_path m = None) /\
    run_batches env_offline 10 world0 = (inr results, w') /\
    let B := (10 + batch_size - 1) / batch_size in
    (forall m, is_Some (files w' !! checkpoint_path m) <->
               1 <= m <= B /\ ((m mod 10 =? 0) || (m =? B)) = true) /\
    (forall m, is_Some (files w' !! checkpoint_path m) <-> m - 1 ∈ due_batches 10 B) /\
    (forall K, 0 < K ->
               Z.of_nat (length (due_batches K B))
               = B / K + (if B mod K =? 0 then 0 else 1)).
Proof.
  destruct (run_batches_total env_offline 10 world0 (fun _ => eq_refl))
    as (results & w' & Hrun & _).
  exists results, w'.
  split; [discriminate|]. split; [intros m; apply lookup_empty|].
  split; [exact Hrun|].
  apply (checkpoints_written_when_due env_offline 10 world0 w' results);
    [discriminate | intros m; apply lookup_empty | exact Hrun].
Defined.

(** C7, as stated, fails: in a run of 100001 documents, that is 11 batches,
    the checkpoint written after batch 10 and the checkpoint written after
    batch 11 are two files, and both exist when the loop ends. *)
Lemma two_checkpoint_files_coexist :
  exists results w' f10 f11,
    run_batches env_offline 100001 world0 = (inr results, w') /\
    files w' !! "synthetic_docs/generation_report_10.json" = Some f10 /\
    is_checkpoint_file 10 11 f10 /\
    files w' !! "synthetic_docs/generation_report_11.json" = Some f11 /\
    is_checkpoint_file 11 11 f11.
Proof.
  destruct (run_batches_total env_offline 100001 world0 (fun _ => eq_refl))
    as (results & w' & Hrun & _).
  destruct (run_batches_checkpoints _ _ _ _ _ Hrun 10) as [H10 _].
  destruct (run_batches_checkpoints _ _ _ _ _ Hrun 11) as [H11 _].
  destruct H10 as (f10 & Hf10 & Hc10); [change (1 <= 10 <= 11); lia | reflexivity |].
  destruct H11 as (f11 & Hf11 & Hc11); [change (1 <= 11 <= 11); lia | reflexivity |].
  exists results, w', f10, f11.
  split; [exact Hrun|]. split; [exact Hf10|]. split; [exact Hc10|].
  split; [exact Hf11 | exact Hc11].
Qed.

(** C7, amended. Every checkpoint is written to a file of its own, named by
    the number of completed batches; two checkpoints never share a file, and
    no checkpoint overwrites or removes an earlier one: when the loop ends,
    the file of every batch after which a checkpoint was due is there and
    holds the count of that batch. *)
Theorem checkpoints_are_separate_files (E : env) (N : Z) (w w' : world)
    (results : list result) :
  run_batches E N w = (inr results, w') ->
  let B := (N + batch_size - 1) / batch_size in
  (forall m m', checkpoint_path m = checkpoint_path m' -> m = m') /\
  (forall b, b ∈ due_batches 10 B ->
             exists f, files w' !! checkpoint_path (b + 1) = Some f /\
                       is_checkpoint_file (b + 1) B f).
Proof.
  intros Hrun B. split; [apply checkpoint_path_inj|].
  intros b Hb. apply elem_of_due_batches in Hb as [Hb Hdue].
  destruct (run_batches_checkpoints E N w results w' Hrun (b + 1)) as [H1 _].
  apply H1; [fold B; lia|]. by replace (b + 1 - 1) with b by lia.
Qed.

Lemma checkpoints_are_separate_files_witness :
  exists results w',
    run_batches env_offline 10 world0 = (inr results, w') /\
    let B := (10 + batch_size - 1) / batch_size in
    (forall m m', checkpoint_path m = checkpoint_path m' -> m = m') /\
    (forall b, b ∈ due_batches 10 B ->
               exists f, files w' !! checkpoint_path (b + 1) = Some f /\
                         is_checkpoint_file (b + 1) B f).
Proof.
  destruct (run_batches_total env_offline 10 world0 (fun _ => eq_refl))
    as (results & w' & Hrun & _).
  exists results, w'. split; [exact Hrun|].
  apply (checkpoints_are_separate_files env_offline 10 world0 w' results); exact Hrun.
Defined.

(** ** The text source as its callers use it *)

Lemma pure_draw_try_returns {A} (c : M A) h P :
  pure_draw c P -> pure_draw (try_except c h) P.
Proof.
  intros Hc w. destruct (Hc w) as (a & w' & Hrun & Pa & Hf).
  exists a, w'. by rewrite (try_except_inr _ _ _ _ _ Hrun).
Qed.

Lemma pure_draw_try_raises {A} (c : M A) h P :
  (forall w, exists e, c w = (inl e, w)) ->
  (forall e, pure_draw (h e) P) ->
  pure_draw (try_except c h) P.
Proof.
  intros Hc Hh w. destruct (Hc w) as (e & Hrun).
  rewrite (try_except_inl _ _ _ _ _ Hrun). apply Hh.
Qed.

(** The [try] block either returns [num_paragraphs] paragraphs or raises
    before any draw was consumed. *)
Lemma primary_paragraphs_outcome E (k s : Z) :
  pure_draw (primary_paragraphs E k s) (fun l => length l = Z.to_nat k) \/
  (forall w, exists e, primary_paragraphs E k s w = (inl e, w)).
Proof.
  unfold primary_paragraphs.
  destruct (nltk_setup E) as [e|].
  { right. intros w. by exists e. }
  destruct (bool_decide (load_books E = [])) eqn:Hempty.
  { right. intros w. by eexists. }
  destruct (decide (0 <= s)) as [Hs|Hs].
  - left. eapply pure_draw_bind; [by apply (pure_draw_ret tt (fun _ => True))|].
    intros _ _. eapply pure_draw_weaken.
    + apply (repeat_collect_pure _ (fun _ => True)).
      eapply pure_draw_bind; [apply sample_pure; lia|].
      intros sel _. by apply pure_draw_ret.
    + by intros l [Hl _].
  - destruct (Z.to_nat k) as [|n] eqn:Hk.
    + left. eapply pure_draw_bind; [by apply (pure_draw_ret tt (fun _ => True))|].
      intros _ _. by apply pure_draw_ret.
    + right. intros w. eexists. unfold bind at 1. simpl.
      unfold bind at 1. unfold bind at 1.
      rewrite sample_out_of_range by lia. reflexivity.
Qed.

(** For every count from 0 to 15 the text source returns exactly that many
    paragraphs and raises nothing, whichever of its two paths is taken. *)
Lemma generate_paragraphs_pure E (k s : Z) :
  0 <= k <= 15 ->
  pure_draw (generate_paragraphs E k s) (fun l => length l = Z.to_nat k).
Proof.
  intros Hk. unfold generate_paragraphs.
  destruct (primary_paragraphs_outcome E k s) as [Hp|Hp].
  - by apply pure_draw_try_returns.
  - apply pure_draw_try_raises; [done|]. intros _.
    eapply pure_draw_weaken; [apply fallback_paragraphs_pure; lia|].
    intros l (Hl & _). rewrite Hl. f_equal. lia.
Qed.

(** ** A synthesizer fails only when the disk does *)

(** A computation that returns, leaving the files alone. *)
Definition runs {A} (c : M A) : Prop := pure_draw c (fun _ => True).

Lemma runs_fold_for {A S} (xs : list A) (body : S -> A -> M S) :
  (forall s x, runs (body s x)) -> forall s, runs (fold_for xs body s).
Proof.
  intros Hb. induction xs as [|x xs IH]; intros s; simpl.
  - by apply pure_draw_ret.
  - eapply pure_draw_bind; [apply Hb|]. intros s' _. apply IH.
Qed.

Ltac runs_step :=
  lazymatch goal with
  | |- pure_draw (ret _) _ => by apply pure_draw_ret
  | |- pure_draw (bind (generate_paragraphs _ _ _) _) _ =>
      eapply pure_draw_bind;
      [apply generate_paragraphs_pure; lia
      | let ps := fresh "ps" in let H := fresh "Hps" in intros ps H; cbv beta in H]
  | |- pure_draw (bind (index _ 0) _) _ =>
      eapply pure_draw_bind; [apply index_pure; lia | intros ? _]
  | |- pure_draw (bind (sample _ _) _) _ =>
      eapply pure_draw_bind; [apply sample_pure; simpl; lia | intros ? _]
  | |- pure_draw (bind (choice _) _) _ =>
      eapply pure_draw_bind; [apply choice_pure; done | intros ? _]
  | |- pure_draw (bind (randint _ _) _) _ =>
      eapply pure_draw_bind;
      [apply randint_pure; lia
      | let n := fresh "n" in let H := fresh "Hn" in intros n H; cbv beta in H]
  | |- pure_draw (bind (repeat_collect _ (randint _ _)) _) _ =>
      eapply pure_draw_bind;
      [apply repeat_collect_pure; apply randint_pure; lia | intros ? _]
  | |- pure_draw (bind (invoice_items _ _ _ _) _) _ =>
      eapply pure_draw_bind; [apply invoice_items_pure | intros ? _]
  | |- pure_draw (bind (fold_for _ _ _) _) _ =>
      eapply pure_draw_bind; [apply runs_fold_for; intros | intros ? _]
  | |- pure_draw (fold_for _ _ _) _ => apply runs_fold_for; intros
  | |- pure_draw (if ?b then _ else _) _ => destruct b
  | |- pure_draw (match ?x with _ => _ end) _ => destruct x
  | |- runs _ => unfold runs
  | |- pure_draw _ _ => progress cbv zeta
  end.

Lemma runs_region_row st region : runs (region_row st region).
Proof. unfold region_row. repeat runs_step. Qed.

Lemma runs_pdf_section E pdf section : runs (pdf_section E pdf section).
Proof. unfold pdf_section. repeat runs_step. Qed.

(** The format of a file on the disk. *)
Definition file_kind (f : file) : string :=
  match f with
  | DocxFile _ => "docx"
  | XlsxFile _ => "xlsx"
  | PdfFile _ => "pdf"
  | TxtFile _ => "txt"
  | JsonFile _ => "json"
  end.

(** The two outcomes of a synthesizer: the disk refuses [path] and that
    error is raised with the files as they were, or the call returns and one
    file of the format [kind] is left at [path], the others as they were. *)
Definition saves_one (E : env) (path kind : string) (c : M unit) : Prop :=
  forall w,
    match io_fault E path with
    | Some e => exists w', c w = (inl e, w') /\ files w' = files w
    | None => exists f w', c w = (inr tt, w') /\ file_kind f = kind /\
                           files w' = <[path := f]> (files w)
    end.

Lemma saves_one_bind {A} E path kind (c : M A) P (k : A -> M unit) :
  pure_draw c P -> (forall a, P a -> saves_one E path kind (k a)) ->
  saves_one E path kind (bind c k).
Proof.
  intros Hc Hk w. destruct (Hc w) as (a & w0 & Hrun & Pa & Hf).
  specialize (Hk a Pa w0). rewrite (bind_inr _ _ _ _ _ Hrun), <- Hf.
  by destruct (io_fault E path).
Qed.

Lemma saves_one_save E path content :
  saves_one E path (file_kind content) (save E path content).
Proof.
  intros w. unfold save. destruct (io_fault E path) as [e|].
  - by exists w.
  - by eexists content, _.
Qed.

Lemma create_word_document_saves_one E filename template_type :
  saves_one E filename "docx" (create_word_document E filename template_type).
Proof.
  unfold create_word_document.
  eapply saves_one_bind; [apply sample_pure; simpl; lia|]. intros letters _.
  eapply (saves_one_bind _ _ _ _ (fun _ => True));
    [|intros doc _; apply (saves_one_save E filename (DocxFile doc))].
  repeat runs_step.
Qed.

Lemma create_excel_document_saves_one E filename template_type :
  saves_one E filename "xlsx" (create_excel_document E filename template_type).
Proof.
  unfold create_excel_document.
  eapply (saves_one_bind _ _ _ _ (fun _ => True));
    [|intros ws _; apply (saves_one_save E filename (XlsxFile ws))].
  unfold data_analysis_sheet, invoice_sheet.
  repeat first [apply runs_region_row | runs_step].
Qed.

Lemma create_pdf_document_saves_one E filename template_type :
  saves_one E filename "pdf" (create_pdf_document E filename template_type).
Proof.
  unfold create_pdf_document.
  eapply (saves_one_bind _ _ _ _ (fun _ => True));
    [|intros pdf _; apply (saves_one_save E filename (PdfFile pdf))].
  repeat first [apply runs_pdf_section | runs_step].
Qed.

(** The text synthesizer opens its file first and then only appends to it. *)
Definition appends_to {A} (path : string) (c : M A) : Prop :=
  forall w content, files w !! path = Some (TxtFile content) ->
    exists a w' more, c w = (inr a, w') /\
      files w' = <[path := TxtFile (content +:+ more)]> (files w).

Lemma str_app_nil_r (s : string) : s +:+ "" = s.
Proof. induction s as [|c s IH]; [done|]. change (String c (s +:+ "") = String c s). by rewrite IH. Qed.

Lemma str_app_assoc (a b c : string) : (a +:+ b) +:+ c = a +:+ (b +:+ c).
Proof.
  induction a as [|x a IH]; [done|].
  change (String x ((a +:+ b) +:+ c) = String x (a +:+ (b +:+ c))). by rewrite IH.
Qed.

Lemma appends_to_pure {A} path (c : M A) P : pure_draw c P -> appends_to path c.
Proof.
  intros Hc w content Hw. destruct (Hc w) as (a & w' & Hrun & _ & Hf).
  exists a, w', "". split; [done|].
  by rewrite str_app_nil_r, Hf, insert_id.
Qed.

Lemma appends_to_bind {A B} path (c : M A) (k : A -> M B) :
  appends_to path c -> (forall a, appends_to path (k a)) ->
  appends_to path (bind c k).
Proof.
  intros Hc Hk w content Hw.
  destruct (Hc w content Hw) as (a & w1 & more1 & Hrun & Hf1).
  destruct (Hk a w1 (content +:+ more1)) as (b & w2 & more2 & Hrun2 & Hf2).
  { by rewrite Hf1, lookup_insert_eq. }
  exists b, w2, (more1 +:+ more2). rewrite (bind_inr _ _ _ _ _ Hrun).
  split; [done|]. by rewrite Hf2, Hf1, insert_insert_eq, str_app_assoc.
Qed.

Lemma appends_to_bind_pure {A B} path (c : M A) P (k : A -> M B) :
  pure_draw c P -> (forall a, P a -> appends_to path (k a)) ->
  appends_to path (bind c k).
Proof.
  intros Hc Hk w content Hw. destruct (Hc w) as (a & w1 & Hrun & Pa & Hf).
  destruct (Hk a Pa w1 content) as (b & w2 & more & Hrun2 & Hf2); [by rewrite Hf|].
  exists b, w2, more. rewrite (bind_inr _ _ _ _ _ Hrun). split; [done|].
  by rewrite Hf2, Hf.
Qed.

Lemma appends_to_fwrite path s : appends_to path (fwrite path s).
Proof.
  intros w content Hw. exists tt, (World (draws w) (cursor w)
    (<[path := TxtFile (content +:+ s)]> (files w))), s.
  split; [|done]. unfold fwrite. do 2 f_equal.
  apply map_eq. intros p. destruct (decide (p = path)) as [->|Hp].
  - by rewrite lookup_alter_eq, Hw, lookup_insert_eq.
  - by rewrite lookup_alter_ne, lookup_insert_ne.
Qed.

Lemma appends_to_for_each {A} path (xs : list A) (body : A -> M unit) :
  (forall x, appends_to path (body x)) -> appends_to path (for_each xs body).
Proof.
  intros Hb. induction xs as [|x xs IH]; simpl.
  - by apply (appends_to_pure _ _ (fun _ => True)), pure_draw_ret.
  - apply appends_to_bind; [apply Hb|]. intros _. apply IH.
Qed.

Ltac appends_step :=
  lazymatch goal with
  | |- appends_to _ (bind (fwrite _ _) _) =>
      apply appends_to_bind; [apply appends_to_fwrite | intros _]
  | |- appends_to _ (bind (choice _) _) =>
      eapply appends_to_bind_pure; [apply choice_pure; done | intros ? _]
  | |- appends_to _ (bind (sample _ _) _) =>
      eapply appends_to_bind_pure; [apply sample_pure; simpl; lia | intros ? _]
  | |- appends_to _ (bind (randint _ _) _) =>
      eapply appends_to_bind_pure;
      [apply randint_pure; lia
      | let n := fresh "n" in let H := fresh "Hn" in intros n H; cbv beta in H]
  | |- appends_to _ (bind (generate_paragraphs _ _ _) _) =>
      eapply appends_to_bind_pure;
      [apply generate_paragraphs_pure; lia | intros ? _]
  | |- appends_to _ (for_each _ _) =>
      apply appends_to_for_each; intros; apply appends_to_fwrite
  | |- appends_to _ (if ?b then _ else _) => destruct b
  end.

Lemma saves_one_open_w E path (body : M unit) :
  appends_to path body -> saves_one E path "txt" (open_w E path ;;; body).
Proof.
  intros Hbody w. unfold open_w, bind, save.
  destruct (io_fault E path) as [e|]; [by exists w|].
  destruct (Hbody (World (draws w) (cursor w) (<[path := TxtFile ""]> (files w))) "")
    as ([] & w' & more & -> & Hf); [by simpl; rewrite lookup_insert_eq|].
  exists (TxtFile more), w'. split; [done|]. split; [done|].
  by rewrite Hf; simpl; rewrite insert_insert_eq.
Qed.

Lemma create_text_document_saves_one E filename template_type :
  saves_one E filename "txt" (create_text_document E filename template_type).
Proof.
  unfold create_text_document. apply saves_one_open_w. repeat appends_step.
Qed.

Lemma synthesize_saves_one E doc_type filename template_type :
  doc_type ∈ map fst DOCUMENT_TYPES ->
  saves_one E filename doc_type (synthesize E doc_type filename template_type).
Proof.
  intros Ht. simpl in Ht. unfold synthesize.
  repeat (apply elem_of_cons in Ht as [->|Ht]); [..|by apply elem_of_nil in Ht];
    simpl.
  - apply create_word_document_saves_one.
  - apply create_pdf_document_saves_one.
  - apply create_excel_document_saves_one.
  - apply create_text_document_saves_one.
Qed.


(** ** The text source: how many paragraphs *)

(** The corpus can be used: the set-up raised nothing and at least one book
    gave a sentence. *)
Definition corpus_available (E : env) : bool :=
  bool_decide (nltk_setup E = None) && negb (bool_decide (load_books E = [])).

(** A paragraph of the primary path: [n] sentences of the corpus, joined by
    spaces. *)
Definition joined_from (corpus : list string) (n : nat) (p : string) : Prop :=
  exists selected, p = String.concat " " selected /\ length selected = n /\
                   selected ⊆ corpus.

(** X4. For every count from 0 to 15, whatever the corpus does and whatever the
    number of sentences asked for, the text source raises nothing, returns
    exactly that many paragraphs and leaves the files alone. *)
Theorem generate_paragraphs_count (E : env) (k s : Z) (w : world) :
  0 <= k <= 15 ->
  exists l w', generate_paragraphs E k s w = (inr l, w') /\
               length l = Z.to_nat k /\ files w' = files w.
Proof. intros Hk. exact (generate_paragraphs_pure E k s Hk w). Qed.

Lemma generate_paragraphs_count_witness :
  0 <= 2 <= 15 /\
  exists l w', generate_paragraphs env_tiny 2 5 world0 = (inr l, w') /\
               length l = Z.to_nat 2 /\ files w' = files world0.
Proof. split; [lia|]. apply (generate_paragraphs_count env_tiny 2 5 world0). lia. Defined.

(** X5. When the corpus can be used and the number of sentences asked for is
    not negative, the count is not capped: the text source returns one
    paragraph per unit of the count, also beyond 15, each made of
    [min(s, size of the corpus)] sentences of the corpus joined by spaces. *)
Theorem generate_paragraphs_primary (E : env) (k s : Z) (w : world) :
  corpus_available E = true -> 0 <= s ->
  exists l w',
    generate_paragraphs E k s w = (inr l, w') /\
    length l = Z.to_nat k /\
    Forall (joined_from (load_books E)
              (Z.to_nat (Z.min s (Z.of_nat (length (load_books E)))))) l /\
    files w' = files w.
Proof.
  intros Hc Hs. apply andb_true_iff in Hc as [Hsetup Hbooks].
  apply bool_decide_eq_true in Hsetup. apply negb_true_iff in Hbooks.
  assert (Hp : pure_draw (primary_paragraphs E k s)
                 (fun l => length l = Z.to_nat k /\
                           Forall (joined_from (load_books E)
                             (Z.to_nat (Z.min s (Z.of_nat (length (load_books E)))))) l)).
  { unfold primary_paragraphs. rewrite Hsetup, Hbooks.
    eapply pure_draw_bind; [by apply (pure_draw_ret tt (fun _ => True))|].
    intros _ _. apply repeat_collect_pure.
    eapply pure_draw_bind; [apply sample_pure; lia|].
    intros sel (Hlen & rest & Hperm). apply pure_draw_ret.
    exists sel. split; [done|]. split; [done|].
    intros x Hx. rewrite Hperm. apply elem_of_app. by left. }
  destruct (pure_draw_try_returns _ (fun _ => fallback_paragraphs k) _ Hp w)
    as (l & w' & Hrun & [Hl Hall] & Hf).
  by exists l, w'.
Qed.

Lemma generate_paragraphs_primary_witness :
  corpus_available env_tiny = true /\ 0 <= 5 /\
  exists l w',
    generate_paragraphs env_tiny 16 5 world0 = (inr l, w') /\
    length l = Z.to_nat 16 /\
    Forall (joined_from (load_books env_tiny)
              (Z.to_nat (Z.min 5 (Z.of_nat (length (load_books env_tiny)))))) l /\
    files w' = files world0.
Proof.
  split; [reflexivity|]. split; [lia|].
  apply (generate_paragraphs_primary env_tiny 16 5 world0); [reflexivity|lia].
Defined.

(** X6. A negative count: when the corpus can be used the text source returns
    no paragraph; when it cannot, the error raised inside the handler, by
    the sampling of the built-in sentences, reaches the caller. *)
Theorem generate_paragraphs_negative_count (E : env) (k s : Z) (w : world) :
  k < 0 ->
  generate_paragraphs E k s w =
  if corpus_available E then (inr [], w)
  else (inl (ValueError "Sample larger than population or is negative"), w).
Proof.
  intros Hk. unfold generate_paragraphs, corpus_available, try_except,
    primary_paragraphs, fallback_paragraphs, bind.
  replace (Z.to_nat k) with 0%nat by lia.
  assert (Hs : forall w0, sample fallback_text
                 (Z.min k (Z.of_nat (length fallback_text))) w0
               = (inl (ValueError "Sample larger than population or is negative"), w0)).
  { intros w0. apply sample_out_of_range. left. lia. }
  destruct (nltk_setup E) as [e|]; simpl.
  - apply Hs.
  - destruct (bool_decide (load_books E = [])); simpl; [apply Hs|done].
Qed.

Lemma generate_paragraphs_negative_count_witness :
  -1 < 0 /\
  generate_paragraphs env_offline (-1) 5 world0 =
  (inl (ValueError "Sample larger than population or is negative"), world0).
Proof.
  split; [lia|].
  apply (generate_paragraphs_negative_count env_offline (-1) 5 world0). lia.
Defined.

(** ** The batches cover every index once *)

(** [r] is what [generate_document] returns for the index [i], from some
    state of the oracle and of the disk. *)
Definition unit_result (E : env) (i : Z) (r : result) : Prop :=
  exists w w', generate_document E i w = (inr r, w').

(** The two shapes of a unit's result, with what the disk said. *)
Lemma unit_result_cases E i r :
  unit_result E i r ->
  (exists filename e, is_doc_path filename /\ io_fault E filename = Some e /\
                      r = failed_result i e) \/
  (exists filename doc_type template_type,
      is_doc_path filename /\ io_fault E filename = None /\
      doc_type ∈ map fst DOCUMENT_TYPES /\
      template_type ∈ map fst DOCUMENT_TEMPLATES /\
      r = success_result i filename doc_type template_type).
Proof.
  intros (w & w' & Hrun).
  destruct (generate_document_cases E i w)
    as (doc_type & template_type & filename & w1 & _ & Ht & Htp & Hp & _ & Hgen).
  pose proof (synthesize_saves_one E doc_type filename template_type Ht w1) as Hs.
  destruct (io_fault E filename) as [e|] eqn:Hio.
  - destruct Hs as (w2 & Hsyn & _). rewrite Hsyn in Hgen.
    left. exists filename, e. repeat split; [done..|congruence].
  - destruct Hs as (f & w2 & Hsyn & _). rewrite Hsyn in Hgen.
    right. exists filename, doc_type, template_type. repeat split; [done..|congruence].
Qed.

Lemma map_m_unit_results E xs : forall w rs w',
  map_m (generate_document E) xs w = (inr rs, w') -> Forall2 (unit_result E) xs rs.
Proof.
  induction xs as [|x xs IH]; intros w rs w' H; simpl in H.
  - injection H as <- _. constructor.
  - apply bind_inr_inv in H as (r & w1 & Hr & H).
    apply bind_inr_inv in H as (rs' & w2 & Hrs & H). injection H as <- _.
    constructor; [by exists w, w1 | by eapply IH].
Qed.

(** A slice of the list of indices is a run of consecutive numbers, cut at
    the end of the list. *)
Lemma slice_seqZ (m N x y : Z) :
  0 <= x -> slice (seqZ m N) x y = seqZ (m + x) (Z.min y N - x).
Proof.
  intros Hx. unfold slice. apply list_eq. intros i.
  destruct (decide (Z.of_nat i < Z.min y N - x)) as [Hi|Hi].
  - rewrite lookup_take_lt by lia. rewrite lookup_drop.
    rewrite !lookup_seqZ_lt by lia. f_equal. lia.
  - rewrite (lookup_seqZ_ge (m + x)) by lia.
    destruct (decide (i < Z.to_nat (y - x))%nat) as [Hi'|Hi'].
    + rewrite lookup_take_lt by lia. rewrite lookup_drop.
      apply lookup_seqZ_ge. lia.
    + apply lookup_take_ge. lia.
Qed.

Lemma run_batch_unit_results E N B results batch w results' w' :
  0 <= batch ->
  run_batch E N B (seqZ 1 N) results batch w = (inr results', w') ->
  exists rs, results' = results ++ rs /\
    Forall2 (unit_result E)
      (seqZ (1 + batch * batch_size)
            (Z.min ((batch + 1) * batch_size) N - batch * batch_size)) rs.
Proof.
  intros Hb H. unfold run_batch in H.
  apply bind_inr_inv in H as (rs & w1 & Hmap & H).
  apply bind_inr_inv in H as ([] & w2 & _ & H). injection H as <- _.
  exists rs. split; [done|].
  apply map_m_unit_results in Hmap.
  rewrite slice_seqZ in Hmap by (unfold batch_size; lia).
  by rewrite <- Z.min_assoc, Z.min_id in Hmap.
Qed.

(** Over the batches [a], [a + 1], ..., [a + n - 1] the units run are those
    of the indices from [a * batch_size + 1] on, up to the end of the batch
    [a + n - 1] or to the last index, each once and in order. *)
Lemma fold_run_batch_unit_results E N B (n : nat) :
  forall a results w results' w',
    0 <= a ->
    fold_for (seqZ a (Z.of_nat n)) (run_batch E N B (seqZ 1 N)) results w
      = (inr results', w') ->
    exists rs, results' = results ++ rs /\
      Forall2 (unit_result E)
        (seqZ (1 + a * batch_size)
              (Z.min ((a + Z.of_nat n) * batch_size) N - a * batch_size)) rs.
Proof.
  induction n as [|n IH]; intros a results w results' w' Ha H.
  - simpl in H. injection H as <- _. exists []. split; [by rewrite app_nil_r|].
    rewrite seqZ_nil by lia. constructor.
  - rewrite seqZ_cons in H by lia.
    replace (Z.pred (Z.of_nat (S n))) with (Z.of_nat n) in H by lia.
    cbn [fold_for] in H.
    apply bind_inr_inv in H as (results1 & w1 & Hb & H).
    apply run_batch_unit_results in Hb as (rs1 & -> & Hrs1); [|done].
    apply IH in H as (rs2 & -> & Hrs2); [|lia].
    exists (rs1 ++ rs2). split; [by rewrite app_assoc|].
    unfold batch_size in *.
    destruct (decide ((a + 1) * 10000 <= N)) as [Hfull|Hpart].
    + replace (Z.min ((a + Z.of_nat (S n)) * 10000) N - a * 10000)
        with (10000 + (Z.min ((Z.succ a + Z.of_nat n) * 10000) N - Z.succ a * 10000))
        by lia.
      rewrite seqZ_app by lia. apply Forall2_app.
      * by replace (Z.min ((a + 1) * 10000) N - a * 10000) with 10000 in Hrs1 by lia.
      * by replace (1 + a * 10000 + 10000) with (1 + Z.succ a * 10000) by lia.
    + rewrite (seqZ_nil (1 + Z.succ a * 10000)) in Hrs2 by lia.
      inversion Hrs2; subst. rewrite app_nil_r.
      by replace (Z.min ((a + Z.of_nat (S n)) * 10000) N - a * 10000)
        with (Z.min ((a + 1) * 10000) N - a * 10000) by lia.
Qed.

Lemma run_batches_unit_results E N w results w' :
  run_batches E N w = (inr results, w') -> Forall2 (unit_result E) (seqZ 1 N) results.
Proof.
  unfold run_batches. set (B := (N + batch_size - 1) / batch_size). intros H.
  assert (HB : batch_size * B <= N + batch_size - 1 < batch_size * B + batch_size).
  { pose proof (Z.div_mod (N + batch_size - 1) batch_size) as Hd.
    pose proof (Z.mod_pos_bound (N + batch_size - 1) batch_size) as Hm.
    fold B in Hd. unfold batch_size in *. lia. }
  unfold batch_size in HB.
  destruct (decide (0 < B)) as [Hpos|Hneg].
  - replace B with (Z.of_nat (Z.to_nat B)) in H at 1 by lia.
    apply fold_run_batch_unit_results in H as (rs & -> & Hrs); [|done].
    simpl. unfold batch_size in Hrs.
    by replace (Z.min ((0 + Z.of_nat (Z.to_nat B)) * 10000) N - 0 * 10000) with N
      in Hrs by lia.
  - rewrite seqZ_nil in H by lia. simpl in H. injection H as <- _.
    rewrite seqZ_nil by lia. constructor.
Qed.

(** X7. The slicing of the indices into batches loses and repeats nothing: a
    run that reaches its end returns one result for every index from 1 to
    [NUM_DOCUMENTS], in the order of the indices; the result at position
    [i] carries the index [i + 1] and the status "success" or "failed". *)
Theorem run_batches_one_result_per_index (E : env) (N : Z) (w w' : world)
    (results : list result) :
  run_batches E N w = (inr results, w') ->
  length results = Z.to_nat N /\
  forall (i : nat) r, results !! i = Some r ->
    r !! "index" = Some (VInt (1 + Z.of_nat i)) /\
    (r !! "status" = Some (VStr "success") \/ r !! "status" = Some (VStr "failed")).
Proof.
  intros H. apply run_batches_unit_results in H.
  split; [by rewrite <- (Forall2_length _ _ _ H), length_seqZ|].
  intros i r Hr.
  destruct (Forall2_lookup_r _ _ _ _ _ H Hr) as (x & Hx & Hu).
  apply lookup_seqZ in Hx as [-> _].
  apply unit_result_cases in Hu
    as [(filename & e & _ & _ & ->)|(filename & doc_type & template_type & _ & _ & _ & _ & ->)].
  - split; [reflexivity|]. by right.
  - split; [reflexivity|]. by left.
Qed.

Lemma run_batches_one_result_per_index_witness :
  exists results w',
    run_batches env_offline 10 world0 = (inr results, w') /\
    length results = Z.to_nat 10 /\
    forall (i : nat) r, results !! i = Some r ->
      r !! "index" = Some (VInt (1 + Z.of_nat i)) /\
      (r !! "status" = Some (VStr "success") \/ r !! "status" = Some (VStr "failed")).
Proof.
  destruct (run_batches_total env_offline 10 world0 (fun _ => eq_refl))
    as (results & w' & Hrun & _).
  exists results, w'. split; [exact Hrun|].
  apply (run_batches_one_result_per_index env_offline 10 world0 w' results). exact Hrun.
Defined.

(** ** The statistics of a run *)

Lemma count_matching_cons field c r rs :
  count_matching field c (r :: rs)
  = count_matching field c [r] + count_matching field c rs.
Proof.
  simpl.
  destruct (py_eqb (get r "status") (VStr "success") && py_eqb (get r field) (VStr c));
    lia.
Qed.

Lemma total_matching_cons field categories r rs :
  total_matching field categories (r :: rs)
  = total_matching field categories [r] + total_matching field categories rs.
Proof.
  induction categories as [|c cs IH]; [done|].
  cbn [total_matching foldr]. fold (total_matching field cs (r :: rs)).
  fold (total_matching field cs [r]). fold (total_matching field cs rs).
  rewrite IH, (count_matching_cons field c r rs). lia.
Qed.

(** A failed unit counts in no category; a successful one counts in exactly
    one category of each distribution. *)
Lemma result_hits r :
  from_generate_document r ->
  (r !! "status" = Some (VStr "failed") /\
   total_matching "type" (map fst DOCUMENT_TYPES) [r] = 0 /\
   total_matching "template" (map fst DOCUMENT_TEMPLATES) [r] = 0) \/
  (r !! "status" = Some (VStr "success") /\
   total_matching "type" (map fst DOCUMENT_TYPES) [r] = 1 /\
   total_matching "template" (map fst DOCUMENT_TEMPLATES) [r] = 1).
Proof.
  intros [(i & e & ->)|(i & filename & doc_type & template_type & -> & Ht & Htp)].
  - left. repeat split; reflexivity.
  - right. simpl in Ht, Htp.
    repeat (apply elem_of_cons in Ht as [->|Ht]); [..|by apply elem_of_nil in Ht];
      (repeat (apply elem_of_cons in Htp as [->|Htp]); [..|by apply elem_of_nil in Htp]);
      repeat split; reflexivity.
Qed.

Lemma statistics_of_results results :
  Forall from_generate_document results ->
  exists s f,
    count_status "success" results = inr s /\
    count_status "failed" results = inr f /\
    0 <= s /\ 0 <= f /\ s + f = Z.of_nat (length results) /\
    total_matching "type" (map fst DOCUMENT_TYPES) results = s /\
    total_matching "template" (map fst DOCUMENT_TEMPLATES) results = s.
Proof.
  induction 1 as [|r rs Hr _ IH].
  - by exists 0, 0.
  - destruct IH as (s & f & Hs & Hf & Hs0 & Hf0 & Hsum & Hty & Htp).
    rewrite (total_matching_cons "type"), (total_matching_cons "template"), Hty, Htp.
    cbn [count_status length]. rewrite Hs, Hf.
    destruct (result_hits r Hr) as [(-> & -> & ->)|(-> & -> & ->)].
    + exists s, (1 + f). repeat split; (reflexivity || lia).
    + exists (1 + s), f. repeat split; (reflexivity || lia).
Qed.

(** X8. Every result of a run is counted once: the successes and the failures
    add up to the number of documents, so that the [failed_count] of the
    final report, [NUM_DOCUMENTS - success_count], is the number of results
    whose status is "failed", the number the checkpoints count. *)
Theorem failed_count_is_the_complement (E : env) (N : Z) (w w' : world)
    (results : list result) :
  0 <= N ->
  run_batches E N w = (inr results, w') ->
  exists s f,
    count_status "success" results = inr s /\
    count_status "failed" results = inr f /\
    0 <= s <= N /\ f = N - s.
Proof.
  intros HN Hrun.
  destruct (statistics_of_results results (run_batches_results _ _ _ _ _ Hrun))
    as (s & f & Hs & Hf & Hs0 & Hf0 & Hsum & _).
  apply run_batches_unit_results, Forall2_length in Hrun.
  rewrite length_seqZ in Hrun.
  exists s, f. repeat split; (done || lia).
Qed.

Lemma failed_count_is_the_complement_witness :
  exists results w' s f,
    0 <= 10 /\
    run_batches env_offline 10 world0 = (inr results, w') /\
    count_status "success" results = inr s /\
    count_status "failed" results = inr f /\
    0 <= s <= 10 /\ f = 10 - s.
Proof.
  destruct (run_batches_total env_offline 10 world0 (fun _ => eq_refl))
    as (results & w' & Hrun & _).
  destruct (failed_count_is_the_complement env_offline 10 world0 w' results
              ltac:(discriminate) Hrun) as (s & f & H).
  exists results, w', s, f. split; [discriminate|]. split; [exact Hrun | exact H].
Defined.

(** X9. The numerators of each distribution of the final report add up to its
    denominator: over the four types, and over the five templates, the
    counts of successful results sum to [success_count]. *)
Theorem distribution_counts_add_up (E : env) (N : Z) (w w' : world)
    (results : list result) :
  run_batches E N w = (inr results, w') ->
  exists success_count,
    count_status "success" results = inr success_count /\
    total_matching "type" (map fst DOCUMENT_TYPES) results = success_count /\
    total_matching "template" (map fst DOCUMENT_TEMPLATES) results = success_count.
Proof.
  intros Hrun.
  destruct (statistics_of_results results (run_batches_results _ _ _ _ _ Hrun))
    as (s & f & Hs & _ & _ & _ & _ & Hty & Htp).
  by exists s.
Qed.

Lemma distribution_counts_add_up_witness :
  exists results w' success_count,
    run_batches env_offline 10 world0 = (inr results, w') /\
    count_status "success" results = inr success_count /\
    total_matching "type" (map fst DOCUMENT_TYPES) results = success_count /\
    total_matching "template" (map fst DOCUMENT_TEMPLATES) results = success_count.
Proof.
  destruct (run_batches_total env_offline 10 world0 (fun _ => eq_refl))
    as (results & w' & Hrun & _).
  destruct (distribution_counts_add_up env_offline 10 world0 w' results Hrun)
    as (s & H).
  exists results, w', s. split; [exact Hrun | exact H].
Defined.

(** ** The final report *)

Lemma unit_results_all_failed E idx results :
  (forall p, is_doc_path p -> is_Some (io_fault E p)) ->
  Forall2 (unit_result E) idx results ->
  count_status "success" results = inr 0.
Proof.
  intros Hfull. induction 1 as [|i r idx rs Hr _ IH]; [done|].
  cbn [count_status]. rewrite IH.
  apply unit_result_cases in Hr
    as [(filename & e & _ & _ & ->)|(filename & ? & ? & Hp & Hio & _)]; [done|].
  destruct (Hfull filename Hp) as [e He]. congruence.
Qed.

Lemma unit_results_all_succeeded E idx results :
  (forall p, is_doc_path p -> io_fault E p = None) ->
  Forall2 (unit_result E) idx results ->
  count_status "success" results = inr (Z.of_nat (length results)).
Proof.
  intros Hok. induction 1 as [|i r idx rs Hr _ IH]; [done|].
  cbn [count_status length]. rewrite IH.
  apply unit_result_cases in Hr
    as [(filename & e & Hp & Hio & _)|(filename & ? & ? & _ & _ & _ & _ & ->)].
  - rewrite (Hok filename Hp) in Hio. done.
  - change (inr (1 + Z.of_nat (length rs)) = inr (Z.of_nat (S (length rs))) :> exn + Z).
    f_equal. lia.
Qed.



Lemma distribution_shares field categories results success_count :
  success_count <> 0 ->
  distribution field categories results success_count
  = inr (shares field categories results success_count).
Proof.
  intros Hs. induction categories as [|c cs IH]; [done|].
  cbn [distribution py_truediv]. rewrite IH.
  by replace (success_count =? 0) with false by (symmetry; by apply Z.eqb_neq).
Qed.

(** X11. Without a success the run ends in an error: the final report is opened,
    which empties it, and the division by [success_count], or before it the
    division by a zero [total_time], raises; [main] has no handler, so the
    error leaves it and the report stays empty. *)
Theorem main_raises_without_success (E : env) (N : Z) (start_time end_time : float)
    (w w1 : world) (results : list result) :
  run_batches E N w = (inr results, w1) ->
  count_status "success" results = inr 0 ->
  io_fault E final_path = None ->
  exists w',
    main E N start_time end_time w =
      (inl (ZeroDivisionError
              (if PrimFloat.eqb (PrimFloat.sub end_time start_time) 0%float
               then "float division by zero" else "division by zero")), w') /\
    files w' = <[final_path := TxtFile ""]> (files w1).
Proof.
  intros Hrun Hs Hio. unfold main. rewrite (bind_inr _ _ _ _ _ Hrun).
  unfold final_report. rewrite Hs.
  unfold bind, lift, ret, raise, open_w, save. rewrite Hio. unfold py_truediv.
  destruct (PrimFloat.eqb (PrimFloat.sub end_time start_time) 0%float).
  - eexists. split; reflexivity.
  - eexists. split; reflexivity.
Qed.

Lemma main_raises_without_success_witness :
  exists results w1 w',
    run_batches env_disk_full 10 world0 = (inr results, w1) /\
    count_status "success" results = inr 0 /\
    io_fault env_disk_full final_path = None /\
    main env_disk_full 10 0 2 world0 =
      (inl (ZeroDivisionError
              (if PrimFloat.eqb (PrimFloat.sub 2 0) 0%float
               then "float division by zero" else "division by zero")), w') /\
    files w' = <[final_path := TxtFile ""]> (files w1).
Proof.
  destruct (run_batches_total env_disk_full 10 world0 (fun _ => eq_refl))
    as (results & w1 & Hrun & _).
  assert (Hs : count_status "success" results = inr 0).
  { apply (unit_results_all_failed env_disk_full (seqZ 1 10)).
    - intros p [rest ->]. by eexists.
    - by eapply run_batches_unit_results. }
  destruct (main_raises_without_success env_disk_full 10 0 2 world0 w1 results
              Hrun Hs eq_refl) as (w' & Hmain & Hf).
  exists results, w1, w'.
  split; [exact Hrun|]. split; [exact Hs|]. split; [reflexivity|].
  split; [exact Hmain | exact Hf].
Defined.

(** X12. With at least one success and a time that is not zero, [main] returns:
    the final report replaces what was at its path; its
    [documents_per_second] is [NUM_DOCUMENTS / total_time] and its
    [failed_count] is [NUM_DOCUMENTS - success_count], while the average
    printed at the end is [success_count / total_time]. *)
Theorem main_writes_the_report (E : env) (N : Z) (start_time end_time : float)
    (w w1 : world) (results : list result) (success_count : Z) :
  run_batches E N w = (inr results, w1) ->
  count_status "success" results = inr success_count ->
  success_count <> 0 ->
  io_fault E final_path = None ->
  PrimFloat.eqb (PrimFloat.sub end_time start_time) 0%float = false ->
  let total_time := PrimFloat.sub end_time start_time in
  exists w',
    main E N start_time end_time w =
      (inr (Summary success_count total_time
              (VFloat (PrimFloat.div (float_of_Z success_count) total_time))), w') /\
    files w' = <[final_path := JsonFile (report_of N success_count total_time results)]>
                 (files w1).
Proof.
  intros Hrun Hs Hne Hio Ht total_time. unfold main.
  rewrite (bind_inr _ _ _ _ _ Hrun). fold total_time.
  unfold final_report, bind. rewrite Hs. cbn [lift ret].
  unfold open_w, save. rewrite Hio. cbn [py_truediv lift]. fold total_time in Ht.
  rewrite Ht. cbn [lift ret]. rewrite !distribution_shares by done.
  cbn [lift ret]. unfold dump. cbn [lift ret files].
  eexists. split; [reflexivity|]. cbn [files]. by rewrite insert_insert_eq.
Qed.

Lemma main_writes_the_report_witness :
  exists results w1 w',
    run_batches env_offline 10 world0 = (inr results, w1) /\
    count_status "success" results = inr 10 /\
    10 <> 0 /\
    io_fault env_offline final_path = None /\
    PrimFloat.eqb (PrimFloat.sub 2 0) 0%float = false /\
    main env_offline 10 0 2 world0 =
      (inr (Summary 10 (PrimFloat.sub 2 0)
              (VFloat (PrimFloat.div (float_of_Z 10) (PrimFloat.sub 2 0)))), w') /\
    files w' = <[final_path := JsonFile (report_of 10 10 (PrimFloat.sub 2 0) results)]>
                 (files w1).
Proof.
  destruct (run_batches_total env_offline 10 world0 (fun _ => eq_refl))
    as (results & w1 & Hrun & _).
  assert (Hs : count_status "success" results = inr 10).
  { rewrite (unit_results_all_succeeded env_offline (seqZ 1 10) results).
    - apply run_batches_unit_results, Forall2_length in Hrun.
      by rewrite <- Hrun.
    - done.
    - by eapply run_batches_unit_results. }
  destruct (main_writes_the_report env_offline 10 0 2 world0 w1 results 10
              Hrun Hs ltac:(discriminate) eq_refl eq_refl) as (w' & Hmain & Hf).
  exists results, w1, w'.
  split; [exact Hrun|]. split; [exact Hs|]. split; [discriminate|].
  split; [reflexivity|]. split; [reflexivity|].
  split; [exact Hmain | exact Hf].
Defined.

(** ** The data-analysis sheet *)

(** The row of a region: its name, four quarterly figures between 100 and
    1000, and their sum. *)
Definition region_written (ws : worksheet) (row : Z) (region : string) : Prop :=
  exists q1 q2 q3 q4 : Z,
    Forall (fun q => 100 <= q <= 1000) [q1; q2; q3; q4] /\
    cells ws !! (row, 1) = Some (VStr region) /\
    cells ws !! (row, 2) = Some (VInt q1) /\
    cells ws !! (row, 3) = Some (VInt q2) /\
    cells ws !! (row, 4) = Some (VInt q3) /\
    cells ws !! (row, 5) = Some (VInt q4) /\
    cells ws !! (row, 6) = Some (VInt (q1 + q2 + q3 + q4)).

Lemma region_row_pure row ws region :
  pure_draw (region_row (row, ws) region)
    (fun st => fst st = row + 1 /\ charts (snd st) = charts ws /\
               region_written (snd st) row region /\
               forall r c, r <> row -> cells (snd st) !! (r, c) = cells ws !! (r, c)).
Proof.
  unfold region_row.
  eapply pure_draw_bind.
  { apply (repeat_collect_pure _ (fun j => 100 <= j <= 1000)), randint_pure. lia. }
  intros qs [Hlen Hall].
  destruct qs as [|q1 [|q2 [|q3 [|q4 [|]]]]]; try discriminate Hlen.
  apply pure_draw_ret. cbn [fst snd map set_row fold_left].
  replace (2 + 1) with 3 by done. replace (3 + 1) with 4 by done.
  replace (4 + 1) with 5 by done.
  split; [done|]. split; [done|]. split.
  - exists q1, q2, q3, q4. split; [done|].
    repeat split;
      repeat first [apply set_cell_lookup_eq | rewrite set_cell_lookup_ne by cell_ne].
  - intros r c Hr. by rewrite !set_cell_lookup_ne by cell_ne.
Qed.

Lemma fold_region_rows (rs : list string) : forall row ws,
  pure_draw (fold_for rs region_row (row, ws))
    (fun st =>
       fst st = row + Z.of_nat (length rs) /\ charts (snd st) = charts ws /\
       (forall (j : nat) region, rs !! j = Some region ->
                                 region_written (snd st) (row + Z.of_nat j) region) /\
       (forall r c, ~ (row <= r < row + Z.of_nat (length rs)) ->
                    cells (snd st) !! (r, c) = cells ws !! (r, c))).
Proof.
  induction rs as [|region rs IH]; intros row ws; cbn [fold_for].
  - apply pure_draw_ret. simpl. split; [lia|]. split; [done|]. split; [|done].
    intros j region Hj. by rewrite lookup_nil in Hj.
  - eapply pure_draw_bind; [apply region_row_pure|].
    intros [row1 ws1] (Hrow & Hch & Hthis & Hother). simpl in Hrow, Hch, Hthis, Hother.
    subst row1. eapply pure_draw_weaken; [apply IH|].
    intros [row2 ws2] (Hrow2 & Hch2 & Hrest & Hother2).
    simpl in Hrow2, Hch2, Hrest, Hother2. cbn [fst snd length].
    split; [lia|]. split; [congruence|]. split.
    + intros [|j] region' Hj; simpl in Hj.
      * injection Hj as <-. replace (row + Z.of_nat 0) with row by lia.
        destruct Hthis as (q1 & q2 & q3 & q4 & Hq & H1 & H2 & H3 & H4 & H5 & H6).
        exists q1, q2, q3, q4. split; [done|].
        rewrite !Hother2 by lia. done.
      * replace (row + Z.of_nat (S j)) with (row + 1 + Z.of_nat j) by lia.
        by apply Hrest.
    + intros r c Hr. rewrite Hother2 by lia. apply Hother. lia.
Qed.

(** X13. In every data-analysis spreadsheet the five regions fill the rows 2 to
    6, in the order of the list; each row holds the name of the region, four
    quarterly figures between 100 and 1000 and, in column 6, their sum; the
    first row holds the headers, no other row is written, and the one chart
    of the sheet reads the columns 2 to 5 of the rows 1 to 6. *)
Theorem data_analysis_rows_add_up (E : env) (filename : string) (w : world) :
  exists (ws : worksheet) (w1 : world),
    create_excel_document E filename "data_analysis" w
      = save E filename (XlsxFile ws) w1 /\
    files w1 = files w /\
    (forall (j : nat) region, regions !! j = Some region ->
                              region_written ws (2 + Z.of_nat j) region) /\
    (forall (c : nat) header,
        ["Region"; "Q1"; "Q2"; "Q3"; "Q4"; "Total"] !! c = Some header ->
        cells ws !! (1, 1 + Z.of_nat c) = Some (VStr header)) /\
    (forall r c, ~ (1 <= r <= 6) -> cells ws !! (r, c) = None) /\
    charts ws = [BarChart "Quarterly Performance by Region" "Region" "Revenue"
                   (2, 1, 5, 6) (1, 2, 6) "H2"].
Proof.
  unfold create_excel_document. rewrite bool_decide_eq_true_2 by reflexivity.
  unfold data_analysis_sheet. cbn [map set_row].
  match goal with |- context [fold_for regions region_row (2, ?ws0)] =>
    destruct (fold_region_rows regions 2 ws0 w)
      as ([row ws] & w1 & Hrun & (Hrow & Hch & Hrows & Hother) & Hf);
    set (header_row := ws0) in *
  end.
  simpl in Hrow, Hch, Hrows, Hother.
  eexists (Worksheet (cells ws) (charts ws ++ [_])), w1.
  split.
  { cbv zeta. erewrite bind_inr; [reflexivity|].
    by rewrite (bind_inr _ _ _ _ _ Hrun). }
  split; [done|]. cbn [cells charts]. split; [exact Hrows|]. split; [|split].
  - intros c header Hc. rewrite Hother by lia.
    destruct c as [|[|[|[|[|[|c]]]]]]; simpl in Hc; [..|done]; injection Hc as <-;
      reflexivity.
  - intros r c Hr. rewrite Hother by (simpl; lia).
    rewrite !lookup_insert_ne by cell_ne. apply lookup_empty.
  - by rewrite Hch.
Qed.

(** ** Templates without a branch *)

Lemma ascii_uppercase_NoDup : NoDup ascii_uppercase.
Proof. apply (bool_decide_unpack _). by vm_compute. Qed.

(** X14. The Word synthesizer has branches for "report" and "letter" only: for
    every other template, "memo", "invoice" and "data_analysis" among them,
    the document saved is its title alone, the template's name in title
    case followed by three distinct capital letters; no paragraph is asked
    for. *)
Theorem create_word_document_title_only (E : env) (filename template_type : string)
    (w : world) :
  template_type <> "report" -> template_type <> "letter" ->
  exists letters w1,
    create_word_document E filename template_type w
      = save E filename
          (DocxFile [Heading (title template_type +:+ " - "
                              +:+ String.concat " " letters) 0]) w1 /\
    files w1 = files w /\
    length letters = 3%nat /\ NoDup letters /\ letters ⊆ ascii_uppercase.
Proof.
  intros Hr Hl. unfold create_word_document.
  destruct (sample_pure ascii_uppercase 3 ltac:(simpl; lia) w)
    as (letters & w1 & Hrun & (Hlen & rest & Hperm) & Hf).
  exists letters, w1. rewrite (bind_inr _ _ _ _ _ Hrun).
  rewrite !bool_decide_eq_false_2 by done.
  split; [reflexivity|]. split; [done|]. split; [done|].
  pose proof ascii_uppercase_NoDup as Hnd. rewrite Hperm in Hnd.
  split; [by apply NoDup_app in Hnd as (? & _ & _)|].
  intros x Hx. rewrite Hperm. apply elem_of_app. by left.
Qed.

Lemma create_word_document_title_only_witness :
  "memo" <> "report" /\ "memo" <> "letter" /\
  exists letters w1,
    create_word_document env_offline "synthetic_docs/doc_0000001_memo_a1b2c3d4.docx"
        "memo" world0
      = save env_offline "synthetic_docs/doc_0000001_memo_a1b2c3d4.docx"
          (DocxFile [Heading (title "memo" +:+ " - "
                              +:+ String.concat " " letters) 0]) w1 /\
    files w1 = files world0 /\
    length letters = 3%nat /\ NoDup letters /\ letters ⊆ ascii_uppercase.
Proof.
  split; [discriminate|]. split; [discriminate|].
  apply (create_word_document_title_only env_offline
           "synthetic_docs/doc_0000001_memo_a1b2c3d4.docx" "memo" world0);
    discriminate.
Defined.

(** X15. The spreadsheet synthesizer has branches for "data_analysis" and
    "invoice" only: for every other template it draws nothing and saves a
    workbook whose sheet has no cell and no chart. *)
Theorem create_excel_document_empty (E : env) (filename template_type : string)
    (w : world) :
  template_type <> "data_analysis" -> template_type <> "invoice" ->
  create_excel_document E filename template_type w
    = save E filename (XlsxFile (Worksheet ∅ [])) w.
Proof.
  intros Hd Hi. unfold create_excel_document.
  by rewrite !bool_decide_eq_false_2 by done.
Qed.

Lemma create_excel_document_empty_witness :
  "report" <> "data_analysis" /\ "report" <> "invoice" /\
  create_excel_document env_offline "synthetic_docs/doc_0000002_report_a1b2c3d4.xlsx"
      "report" world0
    = save env_offline "synthetic_docs/doc_0000002_report_a1b2c3d4.xlsx"
        (XlsxFile (Worksheet ∅ [])) world0.
Proof.
  split; [discriminate|]. split; [discriminate|].
  apply (create_excel_document_empty env_offline
           "synthetic_docs/doc_0000002_report_a1b2c3d4.xlsx" "report" world0);
    discriminate.
Defined.

(** ** The request of a unit *)

(** X16. The draws made before the [try] cannot raise and leave the files alone:
    the type and the template come from the two weighted lists, and the
    file name is built from the index, the template, eight characters out
    of the lower-case letters and the digits, and the type. *)
Theorem draw_request_shape (doc_index : Z) (w : world) :
  exists doc_type template_type cs w',
    draw_request doc_index w
      = (inr (doc_type, template_type,
              doc_filename doc_index template_type (String.concat "" cs) doc_type), w') /\
    doc_type ∈ map fst DOCUMENT_TYPES /\
    template_type ∈ map fst DOCUMENT_TEMPLATES /\
    length cs = 8%nat /\ Forall (fun c => c ∈ ascii_lowercase_digits) cs /\
    files w' = files w.
Proof.
  unfold draw_request.
  destruct (type_draw_pure w) as (? & w1 & H1 & (doc_type & -> & Ht) & Hf1).
  rewrite (bind_inr _ _ _ _ _ H1).
  assert (H1' : index [doc_type] 0 w1 = (inr doc_type, w1)) by reflexivity.
  rewrite (bind_inr _ _ _ _ _ H1').
  destruct (template_draw_pure w1) as (? & w2 & H2 & (template_type & -> & Htp) & Hf2).
  rewrite (bind_inr _ _ _ _ _ H2).
  assert (H2' : index [template_type] 0 w2 = (inr template_type, w2)) by reflexivity.
  rewrite (bind_inr _ _ _ _ _ H2').
  destruct (choices_uniform_pure ascii_lowercase_digits 8 ltac:(done) w2)
    as (cs & w3 & H3 & (Hlen & Hall) & Hf3).
  rewrite (bind_inr _ _ _ _ _ H3).
  exists doc_type, template_type, cs, w3.
  split; [reflexivity|]. repeat (split; [done|]). congruence.
Qed.

(** ** File names *)

Lemma pretty_N_char_digit x : is_digit (pretty_N_char x) = true.
Proof. unfold pretty_N_char. by repeat case_match. Qed.

Lemma pretty_N_char_nonzero x :
  (0 < x)%N -> Ascii.eqb (pretty_N_char x) "0" = false.
Proof. unfold pretty_N_char. intros H. repeat case_match; (reflexivity || lia). Qed.

Lemma pretty_N_go_digits x : forall s,
  all_digits s = true -> all_digits (pretty_N_go x s) = true.
Proof.
  induction (N.lt_wf_0 x) as [x _ IH]; intros s Hs.
  destruct (decide (x = 0%N)) as [->|Hx]; [by rewrite pretty_N_go_0|].
  rewrite pretty_N_go_step by lia. apply IH.
  - apply N.div_lt; lia.
  - simpl. by rewrite pretty_N_char_digit.
Qed.

Lemma pretty_N_go_head x : forall s,
  (0 < x)%N ->
  exists c rest, pretty_N_go x s = String c rest /\ Ascii.eqb c "0" = false.
Proof.
  induction (N.lt_wf_0 x) as [x _ IH]; intros s Hx.
  rewrite pretty_N_go_step by done.
  destruct (decide (x `div` 10 = 0)%N) as [Hd|Hd].
  - rewrite Hd, pretty_N_go_0. eexists _, _. split; [done|].
    apply pretty_N_char_nonzero.
    apply N.div_small_iff in Hd; [|done]. rewrite N.mod_small by done. done.
  - apply IH; [apply N.div_lt; [lia|done] | by apply N.neq_0_lt_0].
Qed.

Lemma pretty_numeral (z : Z) : 0 <= z -> numeral (pretty z).
Proof.
  intros Hz. destruct z as [|p|p]; [| |lia].
  - split; [done|by left].
  - unfold pretty, pretty_Z, pretty, pretty_positive, pretty, pretty_N.
    rewrite decide_False by done.
    split; [by apply pretty_N_go_digits|]. right.
    destruct (pretty_N_go_head (N.pos p) "" ltac:(lia)) as (c & rest & -> & Hc).
    split; [done|]. simpl. by rewrite Hc.
Qed.

Lemma zeros_S n :
  String.concat "" (replicate (S n) "0")
  = String "0" (String.concat "" (replicate n "0")).
Proof. by destruct n. Qed.

Lemma lstrip_zeros_zfill width s :
  lstrip_zeros (zfill width s) = lstrip_zeros s.
Proof.
  unfold zfill. induction (width - String.length s)%nat as [|n IH]; [done|].
  rewrite zeros_S. simpl. exact IH.
Qed.

Lemma all_digits_zfill width s : all_digits s = true -> all_digits (zfill width s) = true.
Proof.
  intros Hs. unfold zfill. induction (width - String.length s)%nat as [|n IH]; [done|].
  rewrite zeros_S. simpl. exact IH.
Qed.

Lemma zfill_numeral_inj width a b :
  numeral a -> numeral b -> zfill width a = zfill width b -> a = b.
Proof.
  intros [_ Ha] [_ Hb] H. apply (f_equal lstrip_zeros) in H.
  rewrite !lstrip_zeros_zfill in H.
  destruct Ha as [->|[Ha1 Ha2]], Hb as [->|[Hb1 Hb2]]; [done|..].
  - rewrite Hb2 in H. simpl in H. congruence.
  - rewrite Ha2 in H. simpl in H. congruence.
  - congruence.
Qed.

Lemma digits_before_underscore a : forall b x y,
  all_digits a = true -> all_digits b = true ->
  a +:+ String "_" x = b +:+ String "_" y -> a = b.
Proof.
  induction a as [|c a IH]; intros [|d b] x y Ha Hb H; simpl in *.
  - done.
  - injection H as <- _. done.
  - injection H as -> _. done.
  - injection H as -> H. f_equal.
    apply andb_true_iff in Ha as [_ Ha]. apply andb_true_iff in Hb as [_ Hb].
    by eapply IH.
Qed.

Lemma format_07d_digits z : 0 <= z -> all_digits (format_07d z) = true.
Proof.
  intros Hz. unfold format_07d.
  replace (z <? 0) with false by (symmetry; apply Z.ltb_ge; lia).
  apply all_digits_zfill, pretty_numeral, Hz.
Qed.

(** X17. Two units never write to the same file: the index is printed in
    digits, filled with zeros up to seven, and closed by an underscore, so
    the file names of two different indices differ, whatever the templates,
    the random suffixes and the types drawn. *)
Theorem units_write_distinct_files (i j : Z)
    (template_type rand_id doc_type template_type' rand_id' doc_type' : string) :
  0 <= i -> 0 <= j -> i <> j ->
  doc_filename i template_type rand_id doc_type
  <> doc_filename j template_type' rand_id' doc_type'.
Proof.
  intros Hi Hj Hne H. apply Hne. unfold doc_filename, path_join in H.
  do 3 apply append_inj_l in H.
  apply digits_before_underscore in H; [|by apply format_07d_digits..].
  unfold format_07d in H.
  replace (i <? 0) with false in H by (symmetry; apply Z.ltb_ge; lia).
  replace (j <? 0) with false in H by (symmetry; apply Z.ltb_ge; lia).
  apply zfill_numeral_inj in H; [|by apply pretty_numeral..].
  by apply (inj pretty) in H.
Qed.

Lemma units_write_distinct_files_witness :
  0 <= 1 /\ 0 <= 12345678 /\ 1 <> 12345678 /\
  doc_filename 1 "memo" "a1b2c3d4" "txt"
  <> doc_filename 12345678 "memo" "a1b2c3d4" "txt".
Proof.
  split; [lia|]. split; [lia|]. split; [lia|].
  apply (units_write_distinct_files 1 12345678 "memo" "a1b2c3d4" "txt"
           "memo" "a1b2c3d4" "txt"); lia.
Defined.

(** ** The text file *)




